(** * The hashchain engine of the HashPay front-end (utils/hashchainTools.ts)

    A shallow embedding of the hashchain utilities: chain generation,
    position/token arithmetic, chain search, anchor verification and the
    bounded "hashes needed" search, followed by the properties the
    specification states about them.

    Conventions of the embedding
    - a JavaScript [number] holding an integer is a [Z]; a subtraction or
      addition is exact as long as its result has magnitude at most 2^53,
      beyond that the result is the nearest double ([double_round]);
    - a JavaScript [string] is a [string]; [===] on strings is [String.eqb];
    - an array is a [list]; reading index [i] gives [option] ([None] is
      [undefined]), also for a negative or too large index;
    - [throw new Error(msg)] is the [Throw] outcome of [result], carrying
      the message the source builds;
    - [keccak256] (viem) is a parameter of the development: an arbitrary
      function from strings to strings. *)

From Stdlib Require Import ZArith List String Ascii Bool Lia DecimalString.
From Stdlib Require Import Sorted Permutation QArith Qround.
From Equations Require Import Equations.
Import ListNotations.
Local Open Scope string_scope.
Local Open Scope list_scope.
Local Open Scope Z_scope.

(** ** Outcomes of a call: a value, or a thrown [Error] *)

Inductive exn : Type :=
| Error (message : string).

Inductive result (A : Type) : Type :=
| Ok (value : A)
| Throw (e : exn).

Arguments Ok {A} value.
Arguments Throw {A} e.

Definition bind {A B : Type} (r : result A) (k : A -> result B) : result B :=
  match r with
  | Ok a => k a
  | Throw e => Throw e
  end.

Notation "x <- r ;; k" := (bind r (fun x => k))
  (at level 61, r at next level, right associativity).

Definition throws {A : Type} (r : result A) : Prop :=
  exists e, r = Throw e.

(** ** JavaScript values used by the source *)

(** A template literal [${n}] for an integer [n] of magnitude below 10^21
    (from there on JavaScript prints the exponent form). *)
Definition number_to_string (n : Z) : string :=
  NilZero.string_of_int (Z.to_int n).

(** Every integer of magnitude up to [2^53] is a double. *)
Definition max_exact : Z := 9007199254740992.

(** The double nearest to an integer: beyond [2^53] the 53 leading binary
    digits are kept, rounding to nearest and, halfway, to the even
    neighbour. (Magnitudes that overflow a double are not considered.) *)
Definition double_round (z : Z) : Z :=
  let a := Z.abs z in
  if a <=? max_exact then z
  else
    let e := Z.log2 a - 52 in
    let q := a / 2 ^ e in
    let r := a mod 2 ^ e in
    let half := 2 ^ (e - 1) in
    let q' := if r <? half then q
              else if half <? r then q + 1
              else if Z.even q then q else q + 1 in
    Z.sgn z * (q' * 2 ^ e).

(** [a - b] and [a + b] on numbers holding integers. *)
Definition js_sub (a b : Z) : Z := double_round (a - b).

Definition js_add (a b : Z) : Z := double_round (a + b).

(** [arr[i]]: [undefined] outside the array. *)
Definition js_get {A : Type} (arr : list A) (i : Z) : option A :=
  if i <? 0 then None else nth_error arr (Z.to_nat i).

(** [arr.indexOf(x)]: the first index holding [x], or [-1]. *)
Fixpoint indexOf_from (arr : list string) (x : string) (i : Z) : Z :=
  match arr with
  | [] => -1
  | y :: rest => if String.eqb y x then i else indexOf_from rest x (i + 1)
  end.

Definition indexOf (arr : list string) (x : string) : Z :=
  indexOf_from arr x 0.

(** [s.startsWith(p)] *)
Definition startsWith (s p : string) : bool := String.prefix p s.

(** [s.length] *)
Definition string_length (s : string) : Z := Z.of_nat (String.length s).

(** Truthiness of an optional string argument: [undefined] and the empty
    string are falsy. *)
Definition truthy (s : option string) : bool :=
  match s with
  | None => false
  | Some EmptyString => false
  | Some _ => true
  end.

(** [x] occurs in [arr] at index [i] and at no smaller index. *)
Definition first_occurrence (arr : list string) (x : string) (i : nat) : Prop :=
  nth_error arr i = Some x /\
  forall j, (j < i)%nat -> nth_error arr j <> Some x.

(** ** The data model *)

Record HashchainData : Type := mkHashchainData {
  seed : string;
  trustAnchor : option string;
  firstToken : option string;
  length : Z;
  nodes : list string;
  fullChain : list string
}.

Record SearchResult : Type := mkSearchResult {
  found : bool;
  position : option Z;
  tokens : option Z
}.

Record Validation : Type := mkValidation {
  isValid : bool;
  errors : list string
}.

(** ** Position and token arithmetic *)

Definition getTokensForPosition (position totalLength : Z) : result Z :=
  if (position <? 1) || (position >? totalLength) then
    Throw (Error (String.append "Position must be between 1 and "
                                (number_to_string totalLength)))
  else if position =? totalLength then
    Ok 0
  else
    Ok (totalLength - position).

Definition getPositionForToken (tokenNumber totalLength : Z) : result Z :=
  if (tokenNumber <? 1) || (tokenNumber >? totalLength - 1) then
    Throw (Error (String.append "Token number must be between 1 and "
                                (number_to_string (totalLength - 1))))
  else
    Ok (totalLength - tokenNumber).

Definition getHashByPosition (hashchain : HashchainData) (position : Z)
  : result (option string) :=
  if (position <? 1) || (position >? length hashchain) then
    Throw (Error (String.append "Position must be between 1 and "
                                (number_to_string (length hashchain))))
  else
    Ok (js_get (fullChain hashchain) (position - 1)).

(** The two functions with their subtractions as JavaScript computes
    them, for every number holding an integer. For a total length of at
    most [2^53] they are the functions above. *)
Module Float64.

Definition getTokensForPosition (position totalLength : Z) : result Z :=
  if (position <? 1) || (position >? totalLength) then
    Throw (Error (String.append "Position must be between 1 and "
                                (number_to_string totalLength)))
  else if position =? totalLength then
    Ok 0
  else
    Ok (js_sub totalLength position).

Definition getPositionForToken (tokenNumber totalLength : Z) : result Z :=
  if (tokenNumber <? 1) || (tokenNumber >? js_sub totalLength 1) then
    Throw (Error (String.append "Token number must be between 1 and "
                                (number_to_string (js_sub totalLength 1))))
  else
    Ok (js_sub totalLength tokenNumber).

End Float64.

(** ** Parameter validation *)

Definition push_if (c : bool) (msg : string) (errs : list string) : list string :=
  if c then errs ++ [msg] else errs.

Definition validateHashchainParams (length : Z) (seed : option string) : Validation :=
  let errors := [] in
  let errors := push_if (length <=? 0) "Length must be greater than 0" errors in
  let errors := push_if (length >? 10000)
                  "Length must be less than or equal to 10000" errors in
  let errors :=
    push_if (truthy seed &&
             negb (match seed with Some s => startsWith s "0x" | None => false end))
      "Seed must start with 0x" errors in
  let errors :=
    push_if (truthy seed &&
             negb (match seed with Some s => string_length s =? 66 | None => false end))
      "Seed must be 32 bytes (0x + 64 hex characters)" errors in
  {| isValid := (Z.of_nat (List.length errors) =? 0); errors := errors |}.

(** ** Search *)

Definition searchHashInHashchain (hashchain : HashchainData) (searchHash : string)
  : result SearchResult :=
  let position := indexOf (fullChain hashchain) searchHash in
  if position =? -1 then
    Ok {| found := false; position := None; tokens := None |}
  else
    let actualPosition := position + 1 in
    tokens <- getTokensForPosition actualPosition (length hashchain) ;;
    Ok {| found := true; position := Some actualPosition; tokens := Some tokens |}.

(** ** Well-formed hash values

    The HashValue of the specification: [0x] followed by exactly 64
    hexadecimal characters. The source has no such check; the predicate is
    the vocabulary of the properties on seeds. *)

Definition is_hex_digit (c : ascii) : bool :=
  let n := nat_of_ascii c in
  ((48 <=? n) && (n <=? 57) || (97 <=? n) && (n <=? 102)
   || (65 <=? n) && (n <=? 70))%nat.

Fixpoint all_hex (s : string) : bool :=
  match s with
  | EmptyString => true
  | String c rest => is_hex_digit c && all_hex rest
  end.

Definition wellFormedHashValue (s : string) : bool :=
  match s with
  | String "0" (String "x" digits) =>
      (String.length digits =? 64)%nat && all_hex digits
  | _ => false
  end.

(** A stand-in hash for concrete runs: it prepends one character, so its
    iterates from any start are pairwise distinct. *)
Definition toy_hash (s : string) : string := String "h" s.

Definition toy_seed : string :=
  "0x0000000000000000000000000000000000000000000000000000000000000000".

Definition toy_generateSeed (_ : unit) : string := toy_seed.

(** The chain of length 3 that [toy_hash] builds from the seed ["s"]. *)
Definition toy_chain : HashchainData :=
  {| seed := "s"; trustAnchor := Some "hhs"; firstToken := Some "hs";
     length := 3; nodes := ["s"; "hs"; "hhs"]; fullChain := ["s"; "hs"; "hhs"] |}.

(** The chain of length 8 that [toy_hash] builds from the seed ["s"]. *)
Definition toy_chain8 : HashchainData :=
  {| seed := "s"; trustAnchor := Some "hhhhhhhs"; firstToken := Some "hhhhhhs";
     length := 8;
     nodes := ["s"; "hs"; "hhs"; "hhhs"; "hhhhs"; "hhhhhs"; "hhhhhhs"; "hhhhhhhs"];
     fullChain :=
       ["s"; "hs"; "hhs"; "hhhs"; "hhhhs"; "hhhhhs"; "hhhhhhs"; "hhhhhhhs"] |}.

(** A record holding one well-formed hash. *)
Definition single_chain : HashchainData :=
  {| seed := toy_seed; trustAnchor := Some toy_seed; firstToken := None;
     length := 1; nodes := [toy_seed]; fullChain := [toy_seed] |}.


(** ** The callers: what a handler does to the user interface

    A handler of the components is modelled by the list of the state
    updates and toasts it performs, in order. Console output is left out. *)

(** The object [handleVerifyHashchain] stores after a completed
    verification ([success: true]); [None] is [null]. *)
Record VerificationDetails : Type := mkVerificationDetails {
  verified : bool;                (* isValid *)
  hashesNeeded : option Z;
  totalLength : option Z;
  hashPosition : option Z;
  tokenNumber : Z;
  error : option string
}.

(** The values of the [verificationResult] state. *)
Inductive VerificationResult : Type :=
| no_result                                   (* null *)
| completed (details : VerificationDetails)   (* { success: true, ... } *)
| failed (error : string).                    (* { success: false, error } *)

Inductive effect : Type :=
| toast_error (msg : string)
| toast_success (msg : string)
| setSearchResult (text : string)
| setIsLoading (loading : bool)
| setVerificationResult (r : VerificationResult).

(** Template literals. *)
Definition template (parts : list string) : string := String.concat "" parts.

Definition string_or_undefined (v : option string) : string :=
  match v with
  | Some s => s
  | None => "undefined"
  end.

Definition number_or_undefined (v : option Z) : string :=
  match v with
  | Some n => number_to_string n
  | None => "undefined"
  end.

(** Truthiness of a number that may be [null]: [null] and [0] are falsy. *)
Definition truthy_number (v : option Z) : bool :=
  match v with
  | Some n => negb (n =? 0)
  | None => false
  end.

(** *** components/HashChain/HashchainTools.tsx *)

(** [searchToken] is the number of the token field when it holds an
    integer; a fraction typed into the field is outside this model. *)
Definition handleSearchToken (hashchainData : option HashchainData)
  (searchToken : Z) : list effect :=
  match hashchainData with
  | None => [toast_error "Please generate a hashchain first"]
  | Some hashchainData =>
      let maxSearchToken := js_sub (length hashchainData) 1 in
      if searchToken <? 1 then
        [toast_error "Token number must be at least 1"]
      else if searchToken >? maxSearchToken then
        [toast_error
           (template ["Token number cannot exceed ";
                      number_to_string maxSearchToken;
                      " (hashchain length: ";
                      number_to_string (length hashchainData); ")"])]
      else
        match (position <- Float64.getPositionForToken searchToken
                             (length hashchainData) ;;
               getHashByPosition hashchainData position) with
        | Ok hash =>
            [setSearchResult
               (template [string_or_undefined hash; " (";
                          number_to_string searchToken; " tokens)"]);
             toast_success
               (template ["Found hash for token "; number_to_string searchToken])]
        | Throw _ => [toast_error "Failed to search token"]
        end
  end.

Definition handleSearchHash (hashchainData : option HashchainData)
  (searchHash : string) : list effect :=
  match hashchainData with
  | None => [toast_error "Please generate a hashchain first"]
  | Some hashchainData =>
      if negb (startsWith searchHash "0x")
         || negb (string_length searchHash =? 66) then
        [toast_error "Invalid hash format (must be 32-byte hex starting with 0x)"]
      else
        match searchHashInHashchain hashchainData searchHash with
        | Ok result =>
            if found result then
              [setSearchResult
                 (template ["Position "; number_or_undefined (position result);
                            ": "; searchHash; " (";
                            number_or_undefined (tokens result); " tokens)"]);
               toast_success
                 (template ["Found hash at position ";
                            number_or_undefined (position result)])]
            else
              [setSearchResult "Hash not found in hashchain";
               toast_error "Hash not found in hashchain"]
        | Throw _ => [toast_error "Failed to search hash"]
        end
  end.

(** [generateRandomTokens(maxToken, count)]. A [Set] of numbers is the list
    of its elements in insertion order. [draws] are the values that
    [Math.floor(Math.random() * maxToken) + 1] takes at the successive
    iterations; the loop stops asking when the set is large enough, and
    [None] says that it is still running when the draws given are used
    up. *)
Definition set_has (x : Z) (s : list Z) : bool := existsb (Z.eqb x) s.

Definition set_add (x : Z) (s : list Z) : list Z :=
  if set_has x s then s else s ++ [x].

Fixpoint random_tokens_loop (draws : list Z) (tokens : list Z) (count : Z)
  : option (list Z) :=
  if Z.of_nat (List.length tokens) <? count then
    match draws with
    | [] => None
    | d :: draws' => random_tokens_loop draws' (set_add d tokens) count
    end
  else Some tokens.

(** [arr.sort((a, b) => a - b)]: the ascending rearrangement. *)
Fixpoint sort_insert (x : Z) (sorted : list Z) : list Z :=
  match sorted with
  | [] => [x]
  | y :: rest => if x <=? y then x :: y :: rest else y :: sort_insert x rest
  end.

Definition sort_ascending (arr : list Z) : list Z :=
  fold_right sort_insert [] arr.

Definition generateRandomTokens (isMounted : bool) (draws : list Z)
  (maxToken count : Z) : option (list Z) :=
  if negb isMounted then Some []
  else
    match random_tokens_loop draws [] count with
    | Some tokens => Some (sort_ascending tokens)
    | None => None
    end.

(** The number [Math.floor(Math.random() * maxToken) + 1] for a value [u]
    of [Math.random()], a rational with [0 <= u < 1]. The product is taken
    exactly; the double product is its rounding, which for [maxToken] up
    to [2^53] stays within the same whole-number bounds. *)
Definition random_token (u : Q) (maxToken : Z) : Z :=
  Qfloor (u * inject_Z maxToken) + 1.

(** [generateRandomTokens(maxToken, count)] with its draws computed from
    the successive values of [Math.random()]. *)
Definition generateRandomTokens_random (isMounted : bool) (randoms : list Q)
  (maxToken count : Z) : option (list Z) :=
  generateRandomTokens isMounted
    (map (fun u => random_token u maxToken) randoms) maxToken count.

(** The hash the quick lookup shows for a token number:
    [getPositionForToken(tokenNumber, hashchainData.length)], then
    [hashchainData.fullChain?.[position - 1] ?? "Invalid position"]. *)
Definition quickLookupHash (hashchainData : HashchainData) (tokenNumber : Z)
  : result string :=
  position <- Float64.getPositionForToken tokenNumber (length hashchainData) ;;
  Ok (match js_get (fullChain hashchainData) (position - 1) with
      | Some hash => hash
      | None => "Invalid position"
      end).

(** ** The hash-dependent part of the engine *)

Section Engine.

(** viem's [keccak256] on hex strings. *)
Variable keccak256 : string -> string.

(** The SDK's [generateSeed()]: the random seed drawn for this call. *)
Variable generateSeed : unit -> string.

(** [n] applications of the hash. *)
Definition hash_times (n : nat) (s : string) : string :=
  Nat.iter n keccak256 s.

(** *** Chain construction *)

(** A computation that hashes: its value and the inputs given to
    [keccak256], in order. *)
Definition hashing (A : Type) : Type := (A * list string)%type.

Definition ret {A : Type} (a : A) : hashing A := (a, []).

Definition hash_then {A : Type} (input : string) (k : string -> hashing A)
  : hashing A :=
  let (a, hashed) := k (keccak256 input) in (a, input :: hashed).

(** Modelled from the spec: the SDK function [hashchain(seed, length)]
    ([@hashchain/sdk]) is not part of the sources. Section 4.1: "build
    an array of length [length]. Index 0 (position 1) = seed. For [i]
    from 1 to [length-1]: [chain[i] = H(chain[i-1])]. The final element
    is never hashed further". [extend_chain prev n] produces the [n]
    elements that follow [prev]. *)
Fixpoint extend_chain (prev : string) (n : nat) : hashing (list string) :=
  match n with
  | O => ret []
  | S n' =>
      hash_then prev (fun h =>
        let (rest, hashed) := extend_chain h n' in (h :: rest, hashed))
  end.

(** Modelled from the spec: [hashchain(seed, length)] of the SDK with the
    log of its hash inputs; index 0 is the seed and [length - 1] hashed
    elements follow (section 4.1). *)
Definition hashchain_run (seed : string) (length : Z) : hashing (list string) :=
  if length <=? 0 then ret []
  else
    let (rest, hashed) := extend_chain seed (Z.to_nat (length - 1)) in
    (seed :: rest, hashed).

(** Modelled from the spec: the array [hashchain(seed, length)] of the SDK
    returns (section 4.1), not part of the sources. *)
Definition hashchain (seed : string) (length : Z) : list string :=
  fst (hashchain_run seed length).

(** Modelled from the spec: the inputs [hashchain(seed, length)] gives to
    [keccak256] (section 4.1: the final element is never hashed). *)
Definition hashchain_hashed (seed : string) (length : Z) : list string :=
  snd (hashchain_run seed length).

(** *** scripts/test_generation.js: the generation loop
    [for (let i = 0; i < 100; i++) { nodes.push(currentValue);
       if (i < 99) currentValue = keccak256(currentValue); }],
    with the script's 100 as the parameter [count] (and 99 as
    [count - 1]). *)
Equations? generation_loop (count i : Z) (currentValue : string)
  (nodes : list string) : list string
  by wf (Z.to_nat (count - i)) lt :=
  generation_loop count i currentValue nodes with Z_lt_dec i count => {
    | left _ =>
        let nodes := nodes ++ [currentValue] in
        let currentValue :=
          if i <? count - 1 then keccak256 currentValue else currentValue in
        generation_loop count (i + 1) currentValue nodes
    | right _ => nodes }.
Proof. lia. Qed.

Definition test_generation (seed : string) : list string :=
  generation_loop 100 0 seed [].

(** *** generateHashchain *)

(** [if (!seed) { seed = generateSeed(); }] *)
Definition seed_or_generated (seed : option string) : string :=
  match seed with
  | Some s => if truthy (Some s) then s else generateSeed tt
  | None => generateSeed tt
  end.

Definition generateHashchain (length : Z) (seed : option string)
  : result HashchainData :=
  if length <=? 0 then
    Throw (Error "Hashchain length must be greater than 0")
  else
    let seed := seed_or_generated seed in
    let hashes := hashchain seed length in
    let hashes_length := Z.of_nat (List.length hashes) in
    let firstToken := js_get hashes (hashes_length - 2) in
    Ok {| seed := seed;
          trustAnchor := js_get hashes (hashes_length - 1);
          firstToken := firstToken;
          length := hashes_length;
          nodes := hashes;
          fullChain := hashes |}.

(** *** verifyHashchain *)

Equations? verify_loop (i numberOfHashes : Z) (currentValue : string)
  : hashing string
  by wf (Z.to_nat (numberOfHashes - i)) lt :=
  verify_loop i numberOfHashes currentValue with Z_lt_dec i numberOfHashes => {
    | left _ =>
        hash_then currentValue (fun currentValue =>
          verify_loop (i + 1) numberOfHashes currentValue)
    | right _ => ret currentValue }.
Proof. lia. Qed.

Definition verifyHashchain (testHash trustAnchor : string) (numberOfHashes : Z)
  : result bool :=
  let currentValue := fst (verify_loop 0 numberOfHashes testHash) in
  Ok (String.eqb currentValue trustAnchor).

(** The inputs [verifyHashchain] gives to [keccak256]. *)
Definition verifyHashchain_hashed (testHash : string) (numberOfHashes : Z)
  : list string :=
  snd (verify_loop 0 numberOfHashes testHash).

(** *** calculateHashesNeeded: [None] is the [null] result *)

Equations? hashesNeeded_loop (i maxHashes : Z) (currentValue trustAnchor : string)
  : option Z
  by wf (Z.to_nat (maxHashes - i)) lt :=
  hashesNeeded_loop i maxHashes currentValue trustAnchor
    with Z_lt_dec i maxHashes => {
    | left _ =>
        let currentValue := keccak256 currentValue in
        if String.eqb currentValue trustAnchor then Some (i + 1)
        else hashesNeeded_loop (i + 1) maxHashes currentValue trustAnchor
    | right _ => None }.
Proof. lia. Qed.

(** The default parameter value [maxHashes: number = 1000]. *)
Definition maxHashes_or_default (maxHashes : option Z) : Z :=
  match maxHashes with
  | Some m => m
  | None => 1000
  end.

Definition calculateHashesNeeded (testHash trustAnchor : string)
  (maxHashes : option Z) : option Z :=
  let maxHashes := maxHashes_or_default maxHashes in
  hashesNeeded_loop 0 maxHashes testHash trustAnchor.

(** *** scripts/test_generation.js: the verification part

    From position 50 the script hashes up to 50 times, printing each step,
    and stops at the first value equal to the trust anchor. *)

Inductive script_line : Type :=
| line_step (i : Z) (current : string)    (* Step i: current *)
| line_success (i : Z)                     (* trust anchor found after i hashes *)
| line_not_found.                          (* not found after 50 hashes *)

Equations? script_verify_loop (i : Z) (current trustAnchor : string)
  : list script_line
  by wf (Z.to_nat (- i + 51)) lt :=
  script_verify_loop i current trustAnchor with Z_le_dec i 50 => {
    | left _ =>
        let current := keccak256 current in
        line_step i current ::
        (if String.eqb current trustAnchor then [line_success i]
         else
           (if i =? 50 then [line_not_found] else [])
           ++ script_verify_loop (i + 1) current trustAnchor)
    | right _ => [] }.
Proof. lia. Qed.

(** [None]: [nodes[49]] or [nodes[99]] would be [undefined]. *)
Definition test_verification (seed : string) : option (list script_line) :=
  let nodes := test_generation seed in
  match js_get nodes 49, js_get nodes 99 with
  | Some testHash, Some trustAnchor =>
      Some (script_verify_loop 1 testHash trustAnchor)
  | _, _ => None
  end.

(** *** components/HashChain/VerifyHashchain.tsx

    [numberOfHashes] is the number of the count field when it holds an
    integer; a fraction typed into the field is outside this model. *)

Definition handleVerifyHashchain (trustAnchor hashToTest : string)
  (numberOfHashes : Z) : list effect :=
  if negb (truthy (Some trustAnchor)) || negb (truthy (Some hashToTest))
     || (numberOfHashes <=? 0) then
    [toast_error "Please fill in all required fields"]
  else
    [setIsLoading true; setVerificationResult no_result]
    ++ (let hashesNeeded := calculateHashesNeeded hashToTest trustAnchor None in
        match verifyHashchain hashToTest trustAnchor numberOfHashes with
        | Ok isValid =>
            let totalLength :=
              if truthy_number hashesNeeded
              then option_map (fun h => js_add h numberOfHashes) hashesNeeded
              else None in
            let hashPosition :=
              if truthy_number totalLength
              then option_map (fun t => js_add (js_sub t numberOfHashes) 1)
                     totalLength
              else None in
            let tokenNumber := numberOfHashes in
            let result :=
              {| verified := isValid;
                 hashesNeeded := hashesNeeded;
                 totalLength := totalLength;
                 hashPosition := hashPosition;
                 tokenNumber := tokenNumber;
                 error := if isValid then None
                          else Some "Hash cannot be derived from trust anchor" |} in
            [setVerificationResult (completed result);
             if verified result
             then toast_success "Hashchain verification successful!"
             else toast_error
                    "Hashchain verification failed: Hash cannot be derived"]
        | Throw (Error message) =>
            [toast_error "Failed to verify hashchain";
             setVerificationResult
               (failed (if truthy (Some message) then message
                        else "Unknown error"))]
        end)
    ++ [setIsLoading false].

(** ** Properties *)

(** *** Position and token arithmetic *)

Lemma getTokensForPosition_in_range (p L : Z) :
  1 <= p <= L ->
  getTokensForPosition p L = Ok (if p =? L then 0 else L - p).
Proof.
  intros Hp. unfold getTokensForPosition.
  rewrite Z.gtb_ltb.
  destruct (Z.ltb_spec p 1); [lia|].
  destruct (Z.ltb_spec L p); [lia|]. simpl.
  destruct (p =? L); reflexivity.
Qed.

Lemma getTokensForPosition_out_of_range (p L : Z) :
  p < 1 \/ p > L ->
  getTokensForPosition p L =
  Throw (Error (String.append "Position must be between 1 and "
                              (number_to_string L))).
Proof.
  intros Hp. unfold getTokensForPosition.
  rewrite Z.gtb_ltb.
  destruct (Z.ltb_spec p 1); [reflexivity|].
  destruct (Z.ltb_spec L p); [reflexivity|lia].
Qed.

Lemma getPositionForToken_in_range (t L : Z) :
  1 <= t <= L - 1 -> getPositionForToken t L = Ok (L - t).
Proof.
  intros Ht. unfold getPositionForToken.
  rewrite Z.gtb_ltb.
  destruct (Z.ltb_spec t 1); [lia|].
  destruct (Z.ltb_spec (L - 1) t); [lia|]. reflexivity.
Qed.

Lemma getPositionForToken_out_of_range (t L : Z) :
  t < 1 \/ t > L - 1 ->
  getPositionForToken t L =
  Throw (Error (String.append "Token number must be between 1 and "
                              (number_to_string (L - 1)))).
Proof.
  intros Ht. unfold getPositionForToken.
  rewrite Z.gtb_ltb.
  destruct (Z.ltb_spec t 1); [reflexivity|].
  destruct (Z.ltb_spec (L - 1) t); [reflexivity|lia].
Qed.

(** *** Search *)

Lemma indexOf_from_first (arr : list string) (x : string) :
  forall (i : nat) (start : Z),
    first_occurrence arr x i ->
    indexOf_from arr x start = start + Z.of_nat i.
Proof.
  induction arr as [|y rest IH]; intros i start [Hi Hfirst].
  - destruct i; discriminate.
  - simpl. destruct (String.eqb_spec y x) as [->|Hne].
    + destruct i as [|i]; [lia|].
      exfalso. apply (Hfirst 0%nat); [lia|reflexivity].
    + destruct i as [|i]; [simpl in Hi; congruence|].
      rewrite (IH i (start + 1)); [lia|].
      split; [exact Hi|].
      intros j Hj. apply (Hfirst (S j)). lia.
Qed.

Lemma indexOf_from_absent (arr : list string) (x : string) :
  forall start, ~ In x arr -> indexOf_from arr x start = -1.
Proof.
  induction arr as [|y rest IH]; intros start Hnot; [reflexivity|].
  simpl. destruct (String.eqb_spec y x) as [->|Hne].
  - exfalso. apply Hnot. now left.
  - apply IH. intros Hin. apply Hnot. now right.
Qed.

Lemma first_occurrence_bound (arr : list string) (x : string) (i : nat) :
  first_occurrence arr x i -> (i < List.length arr)%nat.
Proof.
  intros [Hi _]. apply nth_error_Some. congruence.
Qed.

(** C8. [searchHashInHashchain] is a first-match scan of [fullChain]:
    a target first occurring at 0-based index [i] is reported as found at
    position [i + 1] with the tokens [getTokensForPosition] gives for
    that position and the chain's [length] (a number, not an error, when
    [length] is the number of stored values); an absent target gives
    [found = false] with no position and no tokens, and no error. *)
Theorem searchHashInHashchain_spec (chain : HashchainData) (target : string) :
  (forall i, first_occurrence (fullChain chain) target i ->
     searchHashInHashchain chain target =
     (tokens <- getTokensForPosition (Z.of_nat i + 1) (length chain) ;;
      Ok {| found := true;
            position := Some (Z.of_nat i + 1);
            tokens := Some tokens |})) /\
  (forall i, first_occurrence (fullChain chain) target i ->
     length chain = Z.of_nat (List.length (fullChain chain)) ->
     exists tokens,
       getTokensForPosition (Z.of_nat i + 1) (length chain) = Ok tokens /\
       searchHashInHashchain chain target =
       Ok {| found := true;
             position := Some (Z.of_nat i + 1);
             tokens := Some tokens |}) /\
  (~ In target (fullChain chain) ->
     searchHashInHashchain chain target =
     Ok {| found := false; position := None; tokens := None |}).
Proof.
  assert (Hfound : forall i, first_occurrence (fullChain chain) target i ->
     searchHashInHashchain chain target =
     (tokens <- getTokensForPosition (Z.of_nat i + 1) (length chain) ;;
      Ok {| found := true;
            position := Some (Z.of_nat i + 1);
            tokens := Some tokens |})).
  { intros i Hi. unfold searchHashInHashchain, indexOf.
    rewrite (indexOf_from_first _ _ i 0 Hi).
    destruct (Z.eqb_spec (0 + Z.of_nat i) (-1)); [lia|].
    replace (0 + Z.of_nat i + 1) with (Z.of_nat i + 1) by lia.
    reflexivity. }
  split; [exact Hfound|split].
  - intros i Hi Hlen. rewrite (Hfound i Hi).
    pose proof (first_occurrence_bound _ _ _ Hi) as Hlt.
    rewrite getTokensForPosition_in_range by lia.
    eexists; split; reflexivity.
  - intros Hnot. unfold searchHashInHashchain, indexOf.
    rewrite indexOf_from_absent by exact Hnot. reflexivity.
Qed.

(** *** Iterated hashing and the chain *)

Lemma hash_times_succ_r (n : nat) (s : string) :
  hash_times (S n) s = hash_times n (keccak256 s).
Proof. apply Nat.iter_succ_r. Qed.

Lemma extend_chain_eq (n : nat) :
  forall prev,
    extend_chain prev n =
    (map (fun i => hash_times (S i) prev) (seq 0 n),
     map (fun i => hash_times i prev) (seq 0 n)).
Proof.
  induction n as [|n IH]; intros prev; [reflexivity|].
  cbn [extend_chain]. unfold hash_then. rewrite IH.
  rewrite <- !cons_seq, <- !seq_shift, !map_cons, !map_map.
  f_equal; f_equal; apply map_ext; intros i;
    symmetry; apply hash_times_succ_r.
Qed.

Lemma hashchain_run_eq (seed : string) (length : Z) :
  1 <= length ->
  hashchain_run seed length =
  (map (fun i => hash_times i seed) (seq 0 (Z.to_nat length)),
   map (fun i => hash_times i seed) (seq 0 (Z.to_nat (length - 1)))).
Proof.
  intros Hlen. unfold hashchain_run.
  destruct (Z.leb_spec length 0); [lia|].
  rewrite extend_chain_eq.
  replace (Z.to_nat length) with (S (Z.to_nat (length - 1))) by lia.
  rewrite <- (cons_seq _ 0), <- seq_shift, map_cons, map_map.
  reflexivity.
Qed.

Lemma hashchain_eq (seed : string) (length : Z) :
  1 <= length ->
  hashchain seed length =
  map (fun i => hash_times i seed) (seq 0 (Z.to_nat length)).
Proof.
  intros Hlen. unfold hashchain. now rewrite hashchain_run_eq.
Qed.

Lemma hashchain_length (seed : string) (length : Z) :
  1 <= length ->
  Z.of_nat (List.length (hashchain seed length)) = length.
Proof.
  intros Hlen. rewrite hashchain_eq, length_map, length_seq by lia. lia.
Qed.

Lemma hashchain_get (seed : string) (length i : Z) :
  0 <= i < length ->
  js_get (hashchain seed length) i = Some (hash_times (Z.to_nat i) seed).
Proof.
  intros Hi. unfold js_get.
  destruct (Z.ltb_spec i 0); [lia|].
  rewrite hashchain_eq, nth_error_map, nth_error_seq by lia.
  destruct (Nat.ltb_spec (Z.to_nat i) (Z.to_nat length)); [reflexivity|lia].
Qed.

Lemma hashchain_get_outside (seed : string) (length i : Z) :
  1 <= length -> i < 0 \/ length <= i ->
  js_get (hashchain seed length) i = None.
Proof.
  intros Hlen Hi. unfold js_get.
  destruct (Z.ltb_spec i 0); [reflexivity|].
  rewrite hashchain_eq, nth_error_map, nth_error_seq by lia.
  destruct (Nat.ltb_spec (Z.to_nat i) (Z.to_nat length)); [lia|reflexivity].
Qed.

Lemma hashchain_hashed_eq (seed : string) (length : Z) :
  1 <= length ->
  hashchain_hashed seed length =
  firstn (Z.to_nat (length - 1)) (hashchain seed length).
Proof.
  intros Hlen. unfold hashchain_hashed, hashchain.
  rewrite hashchain_run_eq by lia. cbn [fst snd].
  rewrite firstn_map. f_equal.
  replace (Z.to_nat length) with (Z.to_nat (length - 1) + 1)%nat by lia.
  rewrite seq_app, firstn_app, length_seq, Nat.sub_diag, firstn_O, app_nil_r.
  symmetry. apply firstn_all2. rewrite length_seq. lia.
Qed.

(** The loop of scripts/test_generation.js builds the same chain. *)
Lemma generation_loop_eq (count : Z) (n : nat) :
  forall i currentValue nodes,
    Z.to_nat (count - i) = n ->
    generation_loop count i currentValue nodes =
    nodes ++ map (fun j => hash_times j currentValue) (seq 0 n).
Proof.
  induction n as [|n IH]; intros i cur nodes Hn;
    simp generation_loop; destruct (Z_lt_dec i count) as [Hlt|Hge];
    cbn; try lia.
  - now rewrite app_nil_r.
  - rewrite (IH (i + 1)) by lia. rewrite <- app_assoc. f_equal.
    cbn [app]. f_equal.
    destruct n as [|n]; [reflexivity|].
    destruct (Z.ltb_spec i (count - 1)); [|lia].
    rewrite <- seq_shift, map_map. apply map_ext.
    intros j. symmetry. apply hash_times_succ_r.
Qed.

Lemma test_generation_eq (seed : string) :
  test_generation seed = hashchain seed 100.
Proof.
  unfold test_generation.
  rewrite (generation_loop_eq 100 100) by reflexivity.
  now rewrite hashchain_eq by lia.
Qed.

(** *** Generation *)

Lemma truthy_nonempty (s : string) : s <> "" -> truthy (Some s) = true.
Proof. destruct s; [congruence|reflexivity]. Qed.

Lemma wellFormedHashValue_truthy (s : string) :
  wellFormedHashValue s = true -> seed_or_generated (Some s) = s.
Proof.
  destruct s as [|c s]; [discriminate|reflexivity].
Qed.

Lemma generateHashchain_ok (length : Z) (seed : option string) :
  1 <= length ->
  generateHashchain length seed =
  Ok {| seed := seed_or_generated seed;
        trustAnchor :=
          Some (hash_times (Z.to_nat (length - 1)) (seed_or_generated seed));
        firstToken :=
          js_get (hashchain (seed_or_generated seed) length) (length - 2);
        length := length;
        nodes := hashchain (seed_or_generated seed) length;
        fullChain := hashchain (seed_or_generated seed) length |}.
Proof.
  intros Hlen. unfold generateHashchain.
  destruct (Z.leb_spec length 0); [lia|].
  rewrite hashchain_length by lia.
  rewrite (hashchain_get _ length (length - 1)) by lia.
  reflexivity.
Qed.

Lemma generateHashchain_not_positive (length : Z) (seed : option string) :
  length <= 0 ->
  generateHashchain length seed =
  Throw (Error "Hashchain length must be greater than 0").
Proof.
  intros Hlen. unfold generateHashchain.
  destruct (Z.leb_spec length 0); [reflexivity|lia].
Qed.

(** C1. For [length >= 1] and a well-formed seed, [generateHashchain]
    returns a chain of exactly [length] values that starts with the seed,
    in which every later value is the hash of its predecessor, and whose
    trust anchor is the last value. The values given to the hash are the
    first [length - 1] values of the chain, in order: [length - 1]
    applications, none of them at the last position. The chain is the one
    the generation loop of scripts/test_generation.js builds for that
    count. *)
Theorem generateHashchain_chain (length : Z) (s : string) :
  1 <= length ->
  wellFormedHashValue s = true ->
  exists chain,
    generateHashchain length (Some s) = Ok chain /\
    seed chain = s /\
    Z.of_nat (List.length (fullChain chain)) = length /\
    js_get (fullChain chain) 0 = Some s /\
    (forall i, 1 <= i <= length - 1 ->
       exists prev,
         js_get (fullChain chain) (i - 1) = Some prev /\
         js_get (fullChain chain) i = Some (keccak256 prev)) /\
    (exists anchor,
       trustAnchor chain = Some anchor /\
       js_get (fullChain chain) (length - 1) = Some anchor) /\
    hashchain_hashed s length =
      firstn (Z.to_nat (length - 1)) (fullChain chain) /\
    Z.of_nat (List.length (hashchain_hashed s length)) = length - 1 /\
    fullChain chain = generation_loop length 0 s [].
Proof.
  intros Hlen Hwf. eexists. split.
  - rewrite generateHashchain_ok by exact Hlen. reflexivity.
  - rewrite (wellFormedHashValue_truthy s Hwf). cbn [seed fullChain trustAnchor].
    repeat split.
    + now apply hashchain_length.
    + rewrite hashchain_get by lia. reflexivity.
    + intros i Hi. exists (hash_times (Z.to_nat (i - 1)) s). split.
      * now rewrite hashchain_get by lia.
      * rewrite hashchain_get by lia.
        replace (Z.to_nat i) with (S (Z.to_nat (i - 1))) by lia.
        reflexivity.
    + eexists. split; [reflexivity|].
      now rewrite hashchain_get by lia.
    + now apply hashchain_hashed_eq.
    + rewrite hashchain_hashed_eq, length_firstn by lia.
      pose proof (hashchain_length s length Hlen). lia.
    + rewrite (generation_loop_eq length (Z.to_nat length)) by (f_equal; lia).
      now apply hashchain_eq.
Qed.

(** C10. For [length = 1] [generateHashchain] does not fail; the chain is
    the seed alone, the trust anchor is that value, and [firstToken],
    read at index [length - 2 = -1], is undefined. *)
Theorem generateHashchain_length_one (seed : option string) :
  generateHashchain 1 seed =
  Ok {| seed := seed_or_generated seed;
        trustAnchor := Some (seed_or_generated seed);
        firstToken := None;
        length := 1;
        nodes := [seed_or_generated seed];
        fullChain := [seed_or_generated seed] |} /\
  (forall s, s <> "" -> seed = Some s -> seed_or_generated seed = s) /\
  (forall chain,
     generateHashchain 1 seed = Ok chain ->
     length chain - 2 = -1 /\
     firstToken chain = js_get (fullChain chain) (length chain - 2) /\
     firstToken chain = None).
Proof.
  rewrite generateHashchain_ok by lia. split; [reflexivity|split].
  - intros s Hs ->. unfold seed_or_generated. now rewrite truthy_nonempty.
  - intros chain [= <-]. cbn. repeat split.
Qed.

(** *** Verification *)

Lemma verify_loop_eq (numberOfHashes : Z) (n : nat) :
  forall i currentValue,
    Z.to_nat (numberOfHashes - i) = n ->
    verify_loop i numberOfHashes currentValue =
    (hash_times n currentValue,
     map (fun j => hash_times j currentValue) (seq 0 n)).
Proof.
  induction n as [|n IH]; intros i cur Hn;
    simp verify_loop; destruct (Z_lt_dec i numberOfHashes) as [Hlt|Hge];
    cbn; try lia.
  - reflexivity.
  - unfold hash_then. rewrite (IH (i + 1)) by lia.
    rewrite <- seq_shift, map_map.
    f_equal; [symmetry; apply hash_times_succ_r|].
    f_equal. apply map_ext. intros j. symmetry. apply hash_times_succ_r.
Qed.

Lemma verifyHashchain_eq (testHash trustAnchor : string) (numberOfHashes : Z) :
  verifyHashchain testHash trustAnchor numberOfHashes =
  Ok (String.eqb (hash_times (Z.to_nat numberOfHashes) testHash) trustAnchor).
Proof.
  unfold verifyHashchain.
  rewrite (verify_loop_eq numberOfHashes (Z.to_nat numberOfHashes)) by (f_equal; lia).
  reflexivity.
Qed.

(** C2. For a non-negative [numberOfHashes], [verifyHashchain] hashes
    [testHash] exactly [numberOfHashes] times (not at all for zero, which
    leaves [testHash] as it is) and returns [true] exactly when the value
    reached equals [trustAnchor]. *)
Theorem verifyHashchain_spec (testHash trustAnchor : string) (numberOfHashes : Z) :
  0 <= numberOfHashes ->
  Z.of_nat (List.length (verifyHashchain_hashed testHash numberOfHashes))
    = numberOfHashes /\
  fst (verify_loop 0 numberOfHashes testHash)
    = hash_times (Z.to_nat numberOfHashes) testHash /\
  hash_times 0 testHash = testHash /\
  (verifyHashchain testHash trustAnchor numberOfHashes = Ok true <->
   hash_times (Z.to_nat numberOfHashes) testHash = trustAnchor) /\
  (verifyHashchain testHash trustAnchor numberOfHashes = Ok false <->
   hash_times (Z.to_nat numberOfHashes) testHash <> trustAnchor).
Proof.
  intros Hn. unfold verifyHashchain_hashed.
  rewrite verifyHashchain_eq.
  rewrite (verify_loop_eq numberOfHashes (Z.to_nat numberOfHashes)) by (f_equal; lia).
  cbn [fst snd]. rewrite length_map, length_seq.
  repeat split; try lia;
    destruct (String.eqb_spec (hash_times (Z.to_nat numberOfHashes) testHash)
                trustAnchor); congruence.
Qed.

(** C6 (as the code has it). A negative [numberOfHashes] is not
    rejected: the loop body never runs, nothing is hashed, and the result
    is whether [testHash] equals [trustAnchor]. *)
Theorem verifyHashchain_negative (testHash trustAnchor : string)
  (numberOfHashes : Z) :
  numberOfHashes < 0 ->
  verifyHashchain testHash trustAnchor numberOfHashes =
    Ok (String.eqb testHash trustAnchor) /\
  verifyHashchain_hashed testHash numberOfHashes = [].
Proof.
  intros Hn. unfold verifyHashchain_hashed. rewrite verifyHashchain_eq.
  rewrite (verify_loop_eq numberOfHashes 0) by lia.
  replace (Z.to_nat numberOfHashes) with 0%nat by lia.
  split; reflexivity.
Qed.

(** *** The bounded search for the anchor *)

Lemma hash_times_add (a b : nat) (s : string) :
  hash_times (a + b) s = hash_times a (hash_times b s).
Proof. apply Nat.iter_add. Qed.

Lemma hashesNeeded_loop_found (maxHashes : Z) (trustAnchor : string) (d : nat) :
  forall i currentValue,
    i + Z.of_nat (S d) <= maxHashes ->
    hash_times (S d) currentValue = trustAnchor ->
    (forall j, (1 <= j < S d)%nat -> hash_times j currentValue <> trustAnchor) ->
    hashesNeeded_loop i maxHashes currentValue trustAnchor
    = Some (i + Z.of_nat (S d)).
Proof.
  induction d as [|d IH]; intros i cur Hmax Hreach Hfirst;
    simp hashesNeeded_loop;
    destruct (Z_lt_dec i maxHashes) as [Hlt|Hge]; cbn; try lia.
  - destruct (String.eqb_spec (keccak256 cur) trustAnchor) as [_|Hne].
    + f_equal; lia.
    + now elim Hne.
  - destruct (String.eqb_spec (keccak256 cur) trustAnchor) as [Heq|_].
    + elim (Hfirst 1%nat); [lia|exact Heq].
    + rewrite IH.
      * f_equal; lia.
      * lia.
      * now rewrite <- hash_times_succ_r.
      * intros j Hj. rewrite <- hash_times_succ_r. apply Hfirst. lia.
Qed.

Lemma hashesNeeded_loop_sound (maxHashes : Z) (trustAnchor : string) (n : nat) :
  forall i currentValue r,
    Z.to_nat (maxHashes - i) = n ->
    hashesNeeded_loop i maxHashes currentValue trustAnchor = Some r ->
    i + 1 <= r <= maxHashes /\
    hash_times (Z.to_nat (r - i)) currentValue = trustAnchor.
Proof.
  induction n as [|n IH]; intros i cur r Hn;
    simp hashesNeeded_loop;
    destruct (Z_lt_dec i maxHashes) as [Hlt|Hge]; cbn; try lia;
    try discriminate.
  destruct (String.eqb_spec (keccak256 cur) trustAnchor) as [Heq|Hne].
  - intros [= <-]. split; [lia|].
    now replace (Z.to_nat (i + 1 - i)) with 1%nat by lia.
  - intros Hr. apply IH in Hr; [|lia]. destruct Hr as [Hb Hreach].
    split; [lia|].
    replace (Z.to_nat (r - i)) with (S (Z.to_nat (r - (i + 1)))) by lia.
    now rewrite hash_times_succ_r.
Qed.

Lemma hashesNeeded_loop_none (maxHashes : Z) (trustAnchor : string) (n : nat) :
  forall i currentValue,
    Z.to_nat (maxHashes - i) = n ->
    (forall j, (1 <= j <= n)%nat -> hash_times j currentValue <> trustAnchor) ->
    hashesNeeded_loop i maxHashes currentValue trustAnchor = None.
Proof.
  induction n as [|n IH]; intros i cur Hn Hnever;
    simp hashesNeeded_loop;
    destruct (Z_lt_dec i maxHashes) as [Hlt|Hge]; cbn; try lia;
    try reflexivity.
  destruct (String.eqb_spec (keccak256 cur) trustAnchor) as [Heq|Hne].
  - elim (Hnever 1%nat); [lia|exact Heq].
  - apply IH; [lia|].
    intros j Hj. rewrite <- hash_times_succ_r. apply Hnever. lia.
Qed.

(** [calculateHashesNeeded] never answers [0]: it hashes before it
    compares. *)
Lemma calculateHashesNeeded_positive (testHash trustAnchor : string)
  (maxHashes : option Z) (r : Z) :
  calculateHashesNeeded testHash trustAnchor maxHashes = Some r ->
  1 <= r <= maxHashes_or_default maxHashes /\
  hash_times (Z.to_nat r) testHash = trustAnchor.
Proof.
  unfold calculateHashesNeeded. intros Hr.
  eapply hashesNeeded_loop_sound in Hr; [|reflexivity].
  now rewrite Z.sub_0_r in Hr.
Qed.

(** C3 (as the code has it). In a generated chain of length [L], for
    every position [1 <= k <= L], [verifyHashchain] accepts the value at
    position [k] against the trust anchor with [L - k] hashes. For
    [k < L] within the search bound, [calculateHashesNeeded] answers
    [L - k], provided the anchor's value does not already stand at a
    position strictly between [k] and [L]. It never answers [0]: for
    [k = L] the anchor is hashed before the first comparison. *)
Theorem verification_correctness (L : Z) (seed : option string)
  (chain : HashchainData) (k : Z) (maxHashes : option Z) :
  generateHashchain L seed = Ok chain ->
  1 <= k <= L ->
  exists x anchor,
    js_get (fullChain chain) (k - 1) = Some x /\
    js_get (fullChain chain) (L - 1) = Some anchor /\
    trustAnchor chain = Some anchor /\
    verifyHashchain x anchor (L - k) = Ok true /\
    (k < L ->
     L - k <= maxHashes_or_default maxHashes ->
     (forall j, k < j < L -> js_get (fullChain chain) (j - 1) <> Some anchor) ->
     calculateHashesNeeded x anchor maxHashes = Some (L - k)) /\
    calculateHashesNeeded x anchor maxHashes <> Some 0.
Proof.
  intros Hgen Hk.
  rewrite generateHashchain_ok in Hgen by lia.
  injection Hgen as <-. cbn [fullChain trustAnchor].
  set (s := seed_or_generated seed).
  exists (hash_times (Z.to_nat (k - 1)) s), (hash_times (Z.to_nat (L - 1)) s).
  assert (Hreach : hash_times (Z.to_nat (L - k)) (hash_times (Z.to_nat (k - 1)) s)
                   = hash_times (Z.to_nat (L - 1)) s).
  { rewrite <- hash_times_add. f_equal. lia. }
  repeat split.
  - now rewrite hashchain_get by lia.
  - now rewrite hashchain_get by lia.
  - rewrite verifyHashchain_eq, Hreach. now rewrite String.eqb_refl.
  - intros HkL Hmax Hfresh. unfold calculateHashesNeeded.
    destruct (Z.to_nat (L - k)) as [|d] eqn:Hd; [lia|].
    rewrite (hashesNeeded_loop_found _ _ d).
    + f_equal. lia.
    + lia.
    + exact Hreach.
    + intros j Hj Heq.
      apply (Hfresh (k + Z.of_nat j)); [lia|].
      rewrite hashchain_get by lia. rewrite <- Heq, <- hash_times_add.
      do 2 f_equal. lia.
  - intros Hzero. apply calculateHashesNeeded_positive in Hzero. lia.
Qed.

(** *** Validation of the parameters *)

Lemma push_if_keeps (c : bool) (msg m : string) (errs : list string) :
  In m errs -> In m (push_if c msg errs).
Proof.
  intros Hin. unfold push_if. destruct c; [|exact Hin].
  apply in_or_app. now left.
Qed.

Lemma push_if_adds (msg : string) (errs : list string) :
  In msg (push_if true msg errs).
Proof.
  unfold push_if. apply in_or_app. right. now left.
Qed.

Lemma validateHashchainParams_invalid (length : Z) (seed : option string)
  (m : string) :
  In m (errors (validateHashchainParams length seed)) ->
  isValid (validateHashchainParams length seed) = false.
Proof.
  unfold validateHashchainParams. cbn [errors isValid].
  match goal with |- In _ ?l -> _ => destruct l as [|e l'] end.
  - intros [].
  - intros _. reflexivity.
Qed.

Lemma validateHashchainParams_length_bound (length : Z) (seed : option string) :
  length > 10000 ->
  In "Length must be less than or equal to 10000"
     (errors (validateHashchainParams length seed)).
Proof.
  intros Hlen. unfold validateHashchainParams. cbn [errors].
  do 2 apply push_if_keeps.
  rewrite Z.gtb_ltb. destruct (Z.ltb_spec 10000 length); [|lia].
  apply push_if_adds.
Qed.

Lemma validateHashchainParams_length_positive (length : Z) (seed : option string) :
  length <= 0 ->
  In "Length must be greater than 0"
     (errors (validateHashchainParams length seed)).
Proof.
  intros Hlen. unfold validateHashchainParams. cbn [errors].
  do 3 apply push_if_keeps.
  destruct (Z.leb_spec length 0); [|lia].
  apply push_if_adds.
Qed.

Lemma validateHashchainParams_seed_prefix (length : Z) (s : string) :
  s <> "" -> startsWith s "0x" = false ->
  In "Seed must start with 0x"
     (errors (validateHashchainParams length (Some s))).
Proof.
  intros Hs Hprefix. unfold validateHashchainParams. cbn [errors].
  apply push_if_keeps. rewrite truthy_nonempty, Hprefix by exact Hs.
  apply push_if_adds.
Qed.

Lemma validateHashchainParams_seed_length (length : Z) (s : string) :
  s <> "" -> string_length s <> 66 ->
  In "Seed must be 32 bytes (0x + 64 hex characters)"
     (errors (validateHashchainParams length (Some s))).
Proof.
  intros Hs Hlen. unfold validateHashchainParams. cbn [errors].
  rewrite truthy_nonempty by exact Hs.
  destruct (Z.eqb_spec (string_length s) 66); [contradiction|].
  apply push_if_adds.
Qed.

(** ** Further properties of the engine *)

(** *** What a returned record looks like *)

Lemma generateHashchain_inv (L : Z) (supplied : option string) (chain : HashchainData) :
  generateHashchain L supplied = Ok chain ->
  1 <= L /\
  chain =
  {| seed := seed_or_generated supplied;
     trustAnchor := Some (hash_times (Z.to_nat (L - 1)) (seed_or_generated supplied));
     firstToken := js_get (hashchain (seed_or_generated supplied) L) (L - 2);
     length := L;
     nodes := hashchain (seed_or_generated supplied) L;
     fullChain := hashchain (seed_or_generated supplied) L |}.
Proof.
  intros Hgen. destruct (Z_le_dec L 0) as [Hle|Hgt].
  - rewrite generateHashchain_not_positive in Hgen by exact Hle. discriminate.
  - split; [lia|]. rewrite generateHashchain_ok in Hgen by lia. congruence.
Qed.

(** *** Lookup by position in a generated chain *)

Lemma getHashByPosition_generated_aux (L : Z) (supplied : option string)
  (chain : HashchainData) (p : Z) :
  generateHashchain L supplied = Ok chain ->
  1 <= p <= L ->
  getHashByPosition chain p =
    Ok (Some (hash_times (Z.to_nat (p - 1)) (seed chain))) /\
  trustAnchor chain = Some (hash_times (Z.to_nat (L - 1)) (seed chain)).
Proof.
  intros Hgen Hp. apply generateHashchain_inv in Hgen. destruct Hgen as [HL ->].
  unfold getHashByPosition. cbn [length fullChain seed trustAnchor].
  rewrite Z.gtb_ltb.
  destruct (Z.ltb_spec p 1); [lia|]. destruct (Z.ltb_spec L p); [lia|].
  cbn [orb]. now rewrite hashchain_get by lia.
Qed.

(** In a generated chain of length [L], [getHashByPosition] returns for
    every position [1 <= p <= L] the seed hashed [p - 1] times (the seed at
    position 1, the trust anchor at position [L]) and throws for every
    other position. *)
Theorem getHashByPosition_generated (L : Z) (supplied : option string)
  (chain : HashchainData) (p : Z) :
  generateHashchain L supplied = Ok chain ->
  (1 <= p <= L ->
   getHashByPosition chain p =
   Ok (Some (hash_times (Z.to_nat (p - 1)) (seed chain)))) /\
  (p < 1 \/ p > L ->
   getHashByPosition chain p =
   Throw (Error (String.append "Position must be between 1 and "
                               (number_to_string L)))) /\
  getHashByPosition chain 1 = Ok (Some (seed chain)) /\
  getHashByPosition chain L = Ok (trustAnchor chain).
Proof.
  intros Hgen. pose proof (generateHashchain_inv _ _ _ Hgen) as [HL Hchain].
  split; [|split; [|split]].
  - intros Hp. now apply (getHashByPosition_generated_aux L supplied).
  - intros Hp. unfold getHashByPosition. rewrite Hchain. cbn [length].
    rewrite Z.gtb_ltb.
    destruct (Z.ltb_spec p 1); [reflexivity|].
    destruct (Z.ltb_spec L p); [reflexivity|lia].
  - destruct (getHashByPosition_generated_aux L supplied chain 1 Hgen) as [-> _];
      [lia|reflexivity].
  - destruct (getHashByPosition_generated_aux L supplied chain L Hgen) as [-> ->];
      [lia|reflexivity].
Qed.

Lemma token_hash_lookup (L : Z) (supplied : option string)
  (chain : HashchainData) (t : Z) :
  generateHashchain L supplied = Ok chain ->
  1 <= t <= L - 1 ->
  exists hash anchor,
    (position <- getPositionForToken t (length chain) ;;
     getHashByPosition chain position) = Ok (Some hash) /\
    trustAnchor chain = Some anchor /\
    verifyHashchain hash anchor t = Ok true.
Proof.
  intros Hgen Ht.
  destruct (getHashByPosition_generated_aux L supplied chain (L - t) Hgen)
    as [Hget Hanchor]; [lia|].
  apply generateHashchain_inv in Hgen. destruct Hgen as [HL ->].
  cbn [length seed trustAnchor] in *.
  rewrite getPositionForToken_in_range by lia. cbn [bind].
  eexists; eexists. split; [exact Hget|]. split; [reflexivity|].
  rewrite verifyHashchain_eq, <- hash_times_add.
  replace (Z.to_nat t + Z.to_nat (L - t - 1))%nat with (Z.to_nat (L - 1)) by lia.
  now rewrite String.eqb_refl.
Qed.

(** The hash looked up for token number [t] (position for the token, then
    hash at the position, as the token search of the interface does) is
    the one that reaches the trust anchor in exactly [t] hashes:
    [verifyHashchain] accepts it with [numberOfHashes = t]. *)
Theorem token_hash_verifies (L : Z) (supplied : option string)
  (chain : HashchainData) (t : Z) :
  generateHashchain L supplied = Ok chain ->
  1 <= t <= L - 1 ->
  exists hash anchor,
    (position <- getPositionForToken t (length chain) ;;
     getHashByPosition chain position) = Ok (Some hash) /\
    hash = hash_times (Z.to_nat (L - 1 - t)) (seed chain) /\
    trustAnchor chain = Some anchor /\
    verifyHashchain hash anchor t = Ok true.
Proof.
  intros Hgen Ht.
  destruct (getHashByPosition_generated_aux L supplied chain (L - t) Hgen)
    as [Hget Hanchor]; [lia|].
  apply generateHashchain_inv in Hgen. destruct Hgen as [HL ->].
  cbn [length seed trustAnchor] in *.
  rewrite getPositionForToken_in_range by lia. cbn [bind].
  eexists; eexists. split; [exact Hget|].
  split; [f_equal; f_equal; lia|]. split; [reflexivity|].
  rewrite verifyHashchain_eq, <- hash_times_add.
  replace (Z.to_nat t + Z.to_nat (L - t - 1))%nat with (Z.to_nat (L - 1)) by lia.
  now rewrite String.eqb_refl.
Qed.

(** For a chain of at least two values, [firstToken] is the value one
    hash before the trust anchor: it is the hash looked up for token
    number 1, and hashing it once gives the trust anchor. *)
Theorem firstToken_is_token_one (L : Z) (supplied : option string)
  (chain : HashchainData) :
  generateHashchain L supplied = Ok chain ->
  2 <= L ->
  exists first anchor,
    firstToken chain = Some first /\
    trustAnchor chain = Some anchor /\
    keccak256 first = anchor /\
    (position <- getPositionForToken 1 (length chain) ;;
     getHashByPosition chain position) = Ok (Some first) /\
    verifyHashchain first anchor 1 = Ok true.
Proof.
  intros Hgen HL.
  destruct (getHashByPosition_generated_aux L supplied chain (L - 1) Hgen)
    as [Hget Hanchor]; [lia|].
  apply generateHashchain_inv in Hgen. destruct Hgen as [_ ->].
  cbn [length seed trustAnchor firstToken] in *.
  rewrite getPositionForToken_in_range by lia. cbn [bind].
  rewrite hashchain_get by lia.
  replace (L - 1 - 1) with (L - 2) in Hget by lia.
  assert (Hstep : keccak256 (hash_times (Z.to_nat (L - 2)) (seed_or_generated supplied))
                  = hash_times (Z.to_nat (L - 1)) (seed_or_generated supplied)).
  { replace (Z.to_nat (L - 1)) with (S (Z.to_nat (L - 2))) by lia. reflexivity. }
  eexists; eexists. split; [reflexivity|]. split; [reflexivity|].
  split; [exact Hstep|]. split; [exact Hget|].
  rewrite verifyHashchain_eq. change (Z.to_nat 1) with 1%nat.
  cbn [hash_times Nat.iter nat_rect]. rewrite Hstep. now rewrite String.eqb_refl.
Qed.

(** *** Verification composes *)

(** Hashing the presented value [m] times and asking for [n] further
    hashes is the same check as asking for [m + n] hashes at once. *)
Theorem verifyHashchain_split (testHash trustAnchor : string) (m n : Z) :
  0 <= m -> 0 <= n ->
  verifyHashchain testHash trustAnchor (m + n) =
  verifyHashchain (hash_times (Z.to_nat m) testHash) trustAnchor n.
Proof.
  intros Hm Hn. rewrite !verifyHashchain_eq, <- hash_times_add.
  do 3 f_equal. lia.
Qed.

(** *** Search and lookup *)

Lemma first_occurrence_exists (arr : list string) (x : string) :
  In x arr -> exists i, first_occurrence arr x i.
Proof.
  induction arr as [|y rest IH]; intros Hin; [destruct Hin|].
  destruct (string_dec y x) as [->|Hne].
  - exists 0%nat. split; [reflexivity|]. intros j Hj. lia.
  - destruct Hin as [Heq|Hin]; [contradiction|].
    destruct (IH Hin) as [i [Hi Hfirst]].
    exists (S i). split; [exact Hi|].
    intros [|j] Hj; cbn; [congruence|]. apply Hfirst. lia.
Qed.

Lemma searchHashInHashchain_consistent (chain : HashchainData) (target : string) :
  length chain = Z.of_nat (List.length (fullChain chain)) ->
  (~ In target (fullChain chain) /\
   searchHashInHashchain chain target =
     Ok {| found := false; position := None; tokens := None |}) \/
  (exists i,
     first_occurrence (fullChain chain) target i /\
     searchHashInHashchain chain target =
       Ok {| found := true;
             position := Some (Z.of_nat i + 1);
             tokens := Some (length chain - (Z.of_nat i + 1)) |}).
Proof.
  intros Hlen.
  destruct (in_dec string_dec target (fullChain chain)) as [Hin|Hnot].
  - right. destruct (first_occurrence_exists _ _ Hin) as [i Hi]. exists i.
    split; [exact Hi|].
    pose proof (first_occurrence_bound _ _ _ Hi) as Hlt.
    unfold searchHashInHashchain, indexOf.
    rewrite (indexOf_from_first _ _ i 0 Hi).
    destruct (Z.eqb_spec (0 + Z.of_nat i) (-1)); [lia|].
    replace (0 + Z.of_nat i + 1) with (Z.of_nat i + 1) by lia.
    rewrite getTokensForPosition_in_range by lia. cbn [bind].
    destruct (Z.eqb_spec (Z.of_nat i + 1) (length chain)) as [Heq|Hne];
      do 3 f_equal; lia.
  - left. split; [exact Hnot|].
    unfold searchHashInHashchain, indexOf.
    now rewrite indexOf_from_absent by exact Hnot.
Qed.

(** For a record whose [length] is the number of stored values, search
    and lookup by position are inverse to each other: a hash reported at a
    position is the one [getHashByPosition] returns there, and a hash
    stored at a position is found by the search, at that position or at an
    earlier one holding the same value. The search never throws on such a
    record, and it reports [found] exactly for the stored values. *)
Theorem search_lookup_round_trip (chain : HashchainData) (x : string) :
  length chain = Z.of_nat (List.length (fullChain chain)) ->
  exists r,
    searchHashInHashchain chain x = Ok r /\
    (found r = true <-> In x (fullChain chain)) /\
    (forall p, position r = Some p ->
       getHashByPosition chain p = Ok (Some x) /\
       tokens r = Some (length chain - p)) /\
    (forall p, getHashByPosition chain p = Ok (Some x) ->
       exists q, position r = Some q /\ 1 <= q <= p).
Proof.
  intros Hlen.
  destruct (searchHashInHashchain_consistent chain x Hlen)
    as [[Hnot ->]|[i [Hi ->]]]; eexists; (split; [reflexivity|]);
    cbn [found position tokens].
  - split; [split; [discriminate|contradiction]|]. split; [discriminate|].
    intros p Hget. exfalso. apply Hnot.
    unfold getHashByPosition in Hget.
    destruct ((p <? 1) || (p >? length chain)); [discriminate|].
    injection Hget as Hget. unfold js_get in Hget.
    destruct (p - 1 <? 0); [discriminate|].
    eapply nth_error_In; exact Hget.
  - pose proof (first_occurrence_bound _ _ _ Hi) as Hlt.
    destruct Hi as [Hi Hfirst]. split.
    + split; [|reflexivity]. intros _. eapply nth_error_In; exact Hi.
    + split.
      * intros p [= <-]. split; [|reflexivity].
        unfold getHashByPosition. rewrite Z.gtb_ltb.
        destruct (Z.ltb_spec (Z.of_nat i + 1) 1); [lia|].
        destruct (Z.ltb_spec (length chain) (Z.of_nat i + 1)); [lia|].
        cbn [orb]. unfold js_get.
        destruct (Z.ltb_spec (Z.of_nat i + 1 - 1) 0); [lia|].
        replace (Z.to_nat (Z.of_nat i + 1 - 1)) with i by lia.
        now rewrite Hi.
      * intros p Hget. exists (Z.of_nat i + 1). split; [reflexivity|].
        unfold getHashByPosition in Hget. rewrite Z.gtb_ltb in Hget.
        destruct (Z.ltb_spec p 1); [discriminate|].
        destruct (Z.ltb_spec (length chain) p); [discriminate|].
        cbn [orb] in Hget. injection Hget as Hget. unfold js_get in Hget.
        destruct (Z.ltb_spec (p - 1) 0); [lia|].
        destruct (Nat.lt_ge_cases (Z.to_nat (p - 1)) i) as [Hsmall|Hge]; [|lia].
        elim (Hfirst _ Hsmall). exact Hget.
Qed.

(** In a generated chain the search never throws, and a hash it finds
    with [t] tokens is accepted by [verifyHashchain] against the chain's
    trust anchor with [numberOfHashes = t]. *)
Theorem search_found_verifies (L : Z) (supplied : option string)
  (chain : HashchainData) (target : string) :
  generateHashchain L supplied = Ok chain ->
  exists r,
    searchHashInHashchain chain target = Ok r /\
    (found r = true ->
     exists p t anchor,
       position r = Some p /\ tokens r = Some t /\
       1 <= p <= L /\ t = L - p /\
       trustAnchor chain = Some anchor /\
       verifyHashchain target anchor t = Ok true).
Proof.
  intros Hgen. apply generateHashchain_inv in Hgen. destruct Hgen as [HL ->].
  set (s := seed_or_generated supplied).
  set (chain := {| seed := s; trustAnchor := _; firstToken := _; length := L;
                   nodes := _; fullChain := hashchain s L |}).
  assert (Hlen : length chain = Z.of_nat (List.length (fullChain chain))).
  { cbn. now rewrite hashchain_length. }
  destruct (searchHashInHashchain_consistent chain target Hlen)
    as [[Hnot ->]|[i [Hi ->]]]; eexists; (split; [reflexivity|]);
    cbn [found position tokens]; [discriminate|].
  intros _. pose proof (first_occurrence_bound _ _ _ Hi) as Hlt.
  destruct Hi as [Hi _]. cbn [fullChain chain] in Hi, Hlt.
  assert (HiL : Z.of_nat i < L).
  { pose proof (hashchain_length s L HL). lia. }
  assert (Htarget : target = hash_times i s).
  { pose proof (hashchain_get s L (Z.of_nat i)) as Hget.
    unfold js_get in Hget. destruct (Z.ltb_spec (Z.of_nat i) 0); [lia|].
    rewrite Nat2Z.id in Hget. rewrite Hget in Hi by lia. congruence. }
  eexists; eexists; eexists.
  split; [reflexivity|]. split; [reflexivity|]. split; [lia|].
  split; [reflexivity|]. split; [reflexivity|].
  cbn [length chain]. rewrite verifyHashchain_eq, Htarget, <- hash_times_add.
  replace (Z.to_nat (L - (Z.of_nat i + 1)) + i)%nat with (Z.to_nat (L - 1)) by lia.
  now rewrite String.eqb_refl.
Qed.

(** In a generated chain without repeated values, searching for the value
    at position [k] reports position [k] with [L - k] tokens. *)
Theorem search_finds_position (L : Z) (supplied : option string)
  (chain : HashchainData) (k : Z) :
  generateHashchain L supplied = Ok chain ->
  NoDup (fullChain chain) ->
  1 <= k <= L ->
  exists x,
    js_get (fullChain chain) (k - 1) = Some x /\
    searchHashInHashchain chain x =
      Ok {| found := true; position := Some k; tokens := Some (L - k) |}.
Proof.
  intros Hgen Hnodup Hk.
  pose proof (generateHashchain_inv _ _ _ Hgen) as [HL Hchain].
  assert (Hlen : length chain = Z.of_nat (List.length (fullChain chain))).
  { rewrite Hchain. cbn. now rewrite hashchain_length. }
  assert (HlenL : length chain = L) by (rewrite Hchain; reflexivity).
  assert (Hget : js_get (fullChain chain) (k - 1)
                 = Some (hash_times (Z.to_nat (k - 1)) (seed_or_generated supplied))).
  { rewrite Hchain. cbn [fullChain]. now rewrite hashchain_get by lia. }
  eexists. split; [exact Hget|].
  unfold js_get in Hget. destruct (Z.ltb_spec (k - 1) 0); [lia|].
  destruct (searchHashInHashchain_consistent chain
              (hash_times (Z.to_nat (k - 1)) (seed_or_generated supplied)) Hlen)
    as [[Hnot _]|[i [[Hi Hfirst] ->]]].
  - elim Hnot. eapply nth_error_In; exact Hget.
  - assert (i = Z.to_nat (k - 1)) as ->.
    { apply (proj1 (NoDup_nth_error _) Hnodup).
      - apply nth_error_Some. congruence.
      - congruence. }
    rewrite HlenL. do 3 f_equal; f_equal; lia.
Qed.

(** *** What the bounded search answers *)

Lemma hashesNeeded_loop_minimal (maxHashes : Z) (trustAnchor : string) (n : nat) :
  forall i currentValue r,
    Z.to_nat (maxHashes - i) = n ->
    hashesNeeded_loop i maxHashes currentValue trustAnchor = Some r ->
    forall j, (1 <= j)%nat -> i + Z.of_nat j < r ->
              hash_times j currentValue <> trustAnchor.
Proof.
  induction n as [|n IH]; intros i cur r Hn;
    simp hashesNeeded_loop;
    destruct (Z_lt_dec i maxHashes) as [Hlt|Hge]; cbn; try lia;
    try discriminate.
  destruct (String.eqb_spec (keccak256 cur) trustAnchor) as [Heq|Hne].
  - intros [= <-] j Hj Hlt'. lia.
  - intros Hr [|[|j]] Hj Hjr; [lia|exact Hne|].
    rewrite hash_times_succ_r.
    apply (IH (i + 1) (keccak256 cur) r); [lia|exact Hr|lia|lia].
Qed.

Lemma hashesNeeded_loop_none_inv (maxHashes : Z) (trustAnchor : string) (n : nat) :
  forall i currentValue,
    Z.to_nat (maxHashes - i) = n ->
    hashesNeeded_loop i maxHashes currentValue trustAnchor = None ->
    forall j, (1 <= j <= n)%nat -> hash_times j currentValue <> trustAnchor.
Proof.
  induction n as [|n IH]; intros i cur Hn;
    simp hashesNeeded_loop;
    destruct (Z_lt_dec i maxHashes) as [Hlt|Hge]; cbn; try lia.
  destruct (String.eqb_spec (keccak256 cur) trustAnchor) as [Heq|Hne];
    [discriminate|].
  intros Hnone [|[|j]] Hj; [lia|exact Hne|].
  rewrite hash_times_succ_r.
  apply (IH (i + 1) (keccak256 cur)); [lia|exact Hnone|lia].
Qed.

Lemma verifyHashchain_true_iff (testHash trustAnchor : string) (n : Z) :
  verifyHashchain testHash trustAnchor n = Ok true <->
  hash_times (Z.to_nat n) testHash = trustAnchor.
Proof.
  rewrite verifyHashchain_eq.
  destruct (String.eqb_spec (hash_times (Z.to_nat n) testHash) trustAnchor);
    split; congruence.
Qed.

Lemma verifyHashchain_false_iff (testHash trustAnchor : string) (n : Z) :
  verifyHashchain testHash trustAnchor n = Ok false <->
  hash_times (Z.to_nat n) testHash <> trustAnchor.
Proof.
  rewrite verifyHashchain_eq.
  destruct (String.eqb_spec (hash_times (Z.to_nat n) testHash) trustAnchor);
    split; congruence.
Qed.

(** A count that verifies, within the bound, is never smaller than the
    answer of [calculateHashesNeeded]. *)
Lemma calculateHashesNeeded_le (testHash trustAnchor : string)
  (maxHashes : option Z) (n : Z) :
  1 <= n <= maxHashes_or_default maxHashes ->
  verifyHashchain testHash trustAnchor n = Ok true ->
  exists r, calculateHashesNeeded testHash trustAnchor maxHashes = Some r /\
            1 <= r <= n.
Proof.
  intros Hn Hverify. apply verifyHashchain_true_iff in Hverify.
  unfold calculateHashesNeeded.
  destruct (hashesNeeded_loop 0 (maxHashes_or_default maxHashes) testHash trustAnchor)
    as [r|] eqn:Hr.
  - exists r. split; [reflexivity|].
    pose proof (hashesNeeded_loop_sound _ _ _ 0 testHash r eq_refl Hr) as [Hb _].
    split; [lia|].
    destruct (Z_le_dec r n) as [Hle|Hgt]; [exact Hle|].
    elim (hashesNeeded_loop_minimal _ _ _ 0 testHash r eq_refl Hr (Z.to_nat n));
      [lia|lia|exact Hverify].
  - elim (hashesNeeded_loop_none_inv _ _ _ 0 testHash eq_refl Hr (Z.to_nat n));
      [lia|exact Hverify].
Qed.

(** An answer [r] of [calculateHashesNeeded] is a count that
    [verifyHashchain] accepts, it lies between 1 and the bound, and it is
    the smallest one: every count from 1 below [r] is rejected. *)
Theorem calculateHashesNeeded_first (testHash trustAnchor : string)
  (maxHashes : option Z) (r : Z) :
  calculateHashesNeeded testHash trustAnchor maxHashes = Some r ->
  1 <= r <= maxHashes_or_default maxHashes /\
  verifyHashchain testHash trustAnchor r = Ok true /\
  (forall j, 1 <= j < r -> verifyHashchain testHash trustAnchor j = Ok false).
Proof.
  intros Hr. pose proof (calculateHashesNeeded_positive _ _ _ _ Hr) as [Hb Hreach].
  split; [exact Hb|]. split; [now apply verifyHashchain_true_iff|].
  intros j Hj. apply verifyHashchain_false_iff.
  apply (hashesNeeded_loop_minimal _ _ _ 0 testHash r eq_refl Hr); lia.
Qed.

(** [calculateHashesNeeded] answers [null] exactly when no count from 1 to
    the bound is accepted by [verifyHashchain]; with a bound of zero or
    less it always answers [null], also when the two hashes are equal. *)
Theorem calculateHashesNeeded_null (testHash trustAnchor : string)
  (maxHashes : option Z) :
  (calculateHashesNeeded testHash trustAnchor maxHashes = None <->
   forall j, 1 <= j <= maxHashes_or_default maxHashes ->
             verifyHashchain testHash trustAnchor j = Ok false) /\
  (maxHashes_or_default maxHashes <= 0 ->
   calculateHashesNeeded testHash trustAnchor maxHashes = None).
Proof.
  assert (Hback : (forall j, 1 <= j <= maxHashes_or_default maxHashes ->
                     verifyHashchain testHash trustAnchor j = Ok false) ->
                  calculateHashesNeeded testHash trustAnchor maxHashes = None).
  { intros Hnone. unfold calculateHashesNeeded.
    apply (hashesNeeded_loop_none _ _ _ 0 testHash eq_refl).
    intros j Hj. specialize (Hnone (Z.of_nat j)).
    rewrite verifyHashchain_false_iff, Nat2Z.id in Hnone. apply Hnone. lia. }
  split; [split|].
  - intros Hnone j Hj. apply verifyHashchain_false_iff.
    apply (hashesNeeded_loop_none_inv _ _ _ 0 testHash eq_refl Hnone). lia.
  - exact Hback.
  - intros Hmax. apply Hback. intros j Hj. lia.
Qed.

(** *** Validation *)

(** [validateHashchainParams] answers [isValid = true], with no error
    message, exactly when the length is between 1 and 10000 and the seed is
    omitted or empty or starts with [0x] and has 66 characters. *)
Theorem validateHashchainParams_valid_iff (L : Z) (supplied : option string) :
  (isValid (validateHashchainParams L supplied) = true <->
   1 <= L <= 10000 /\
   (truthy supplied = false \/
    exists s, supplied = Some s /\ startsWith s "0x" = true /\
              string_length s = 66)) /\
  (isValid (validateHashchainParams L supplied) = true <->
   errors (validateHashchainParams L supplied) = []).
Proof.
  assert (Hforward :
            1 <= L <= 10000 /\
            (truthy supplied = false \/
             exists s, supplied = Some s /\ startsWith s "0x" = true /\
                       string_length s = 66) ->
            validateHashchainParams L supplied =
              {| isValid := true; errors := [] |}).
  { intros [HL Hseed]. unfold validateHashchainParams. rewrite Z.gtb_ltb.
    destruct (Z.leb_spec L 0); [lia|]. destruct (Z.ltb_spec 10000 L); [lia|].
    destruct Hseed as [Hfalsy|(s & -> & Hprefix & Hlen)].
    - rewrite Hfalsy. reflexivity.
    - rewrite Hprefix, Hlen. cbn [negb Z.eqb Pos.eqb].
      rewrite !andb_false_r. reflexivity. }
  assert (Hbackward :
            isValid (validateHashchainParams L supplied) = true ->
            1 <= L <= 10000 /\
            (truthy supplied = false \/
             exists s, supplied = Some s /\ startsWith s "0x" = true /\
                       string_length s = 66)).
  { intros Hvalid.
    assert (Hno : forall m, ~ In m (errors (validateHashchainParams L supplied))).
    { intros m Hin.
      rewrite (validateHashchainParams_invalid _ _ _ Hin) in Hvalid.
      discriminate. }
    split.
    - destruct (Z_le_dec L 0) as [Hle|Hpos];
        [elim (Hno _ (validateHashchainParams_length_positive L supplied Hle))|].
      destruct (Z_gt_dec L 10000) as [Hbig|Hsmall];
        [elim (Hno _ (validateHashchainParams_length_bound L supplied Hbig))|].
      lia.
    - destruct (truthy supplied) eqn:Htruthy; [|now left]. right.
      destruct supplied as [s|]; [|discriminate].
      assert (Hs : s <> "") by (intros ->; discriminate).
      exists s. split; [reflexivity|]. split.
      + destruct (startsWith s "0x") eqn:Hprefix; [reflexivity|].
        elim (Hno _ (validateHashchainParams_seed_prefix L s Hs Hprefix)).
      + destruct (Z.eq_dec (string_length s) 66) as [Hlen|Hlen]; [exact Hlen|].
        elim (Hno _ (validateHashchainParams_seed_length L s Hs Hlen)). }
  split; split.
  - exact Hbackward.
  - intros Hok. now rewrite (Hforward Hok).
  - intros Hvalid. now rewrite (Hforward (Hbackward Hvalid)).
  - intros Herr. unfold validateHashchainParams in *. cbn [isValid errors] in *.
    now rewrite Herr.
Qed.

(** *** The script's verification run *)

Lemma map_seq_shift {A : Type} (f : nat -> A) (n : nat) :
  map f (seq 0 (S n)) = f 0%nat :: map (fun j => f (S j)) (seq 0 n).
Proof.
  rewrite <- cons_seq, <- seq_shift, map_cons, map_map. reflexivity.
Qed.

Lemma script_verify_loop_step (i : Z) (current trustAnchor : string) :
  i <= 50 ->
  script_verify_loop i current trustAnchor =
  line_step i (keccak256 current) ::
  (if String.eqb (keccak256 current) trustAnchor then [line_success i]
   else (if i =? 50 then [line_not_found] else [])
        ++ script_verify_loop (i + 1) (keccak256 current) trustAnchor).
Proof.
  intros Hi. rewrite (script_verify_loop_equation_1 i current trustAnchor).
  destruct (Z_le_dec i 50); [reflexivity|lia].
Qed.

Lemma script_verify_loop_reaches (trustAnchor : string) (n : nat) :
  forall i current,
    Z.of_nat (S n) = 51 - i ->
    hash_times (S n) current = trustAnchor ->
    exists k : nat,
      (k <= n)%nat /\
      script_verify_loop i current trustAnchor =
        map (fun j => line_step (i + Z.of_nat j) (hash_times (S j) current))
            (seq 0 (S k))
        ++ [line_success (i + Z.of_nat k)] /\
      hash_times (S k) current = trustAnchor /\
      (forall j, (j < k)%nat -> hash_times (S j) current <> trustAnchor).
Proof.
  induction n as [|n IH]; intros i cur Hi Hreach;
    rewrite script_verify_loop_step by lia;
    destruct (String.eqb_spec (keccak256 cur) trustAnchor) as [Heq|Hne];
    try (exists 0%nat; split; [lia|]; split; [|split; [exact Heq|]];
         [cbn; now rewrite Z.add_0_r|intros j Hj; lia]).
  - elim Hne. exact Hreach.
  - destruct (Z.eqb_spec i 50) as [Hi50|Hi50]; [lia|]. cbn [app].
    destruct (IH (i + 1) (keccak256 cur)) as (k & Hk & Hlog & Hat & Hfirst);
      [lia|now rewrite <- hash_times_succ_r|].
    exists (S k). split; [lia|]. split; [|split].
    + rewrite Hlog.
      rewrite (map_seq_shift
                 (fun j => line_step (i + Z.of_nat j) (hash_times (S j) cur)) (S k)).
      cbn [app]. rewrite Z.add_0_r. f_equal.
      replace (i + Z.of_nat (S k)) with (i + 1 + Z.of_nat k) by lia.
      f_equal. apply map_ext. intros j. rewrite <- hash_times_succ_r.
      f_equal. lia.
    + now rewrite hash_times_succ_r.
    + intros [|j] Hj; [exact Hne|].
      rewrite hash_times_succ_r. apply Hfirst. lia.
Qed.

(** The verification run of scripts/test_generation.js succeeds for every
    hash function and seed: it prints the steps [1 .. k] and then the
    success line for some [k <= 50], the first step whose value is the
    trust anchor, and it never prints the "not found" line. *)
Theorem test_verification_succeeds (s : string) :
  exists (k : nat) (log : list script_line),
    test_verification s = Some log /\
    (1 <= k <= 50)%nat /\
    log = map (fun j => line_step (Z.of_nat j) (hash_times (49 + j) s)) (seq 1 k)
          ++ [line_success (Z.of_nat k)] /\
    ~ In line_not_found log /\
    hash_times (49 + k) s = hash_times 99 s /\
    (forall j, (1 <= j < k)%nat -> hash_times (49 + j) s <> hash_times 99 s).
Proof.
  unfold test_verification. rewrite test_generation_eq.
  rewrite !hashchain_get by lia.
  change (Z.to_nat 49) with 49%nat. change (Z.to_nat 99) with 99%nat.
  destruct (script_verify_loop_reaches (hash_times 99 s) 49 1 (hash_times 49 s))
    as (k & Hk & Hlog & Hat & Hfirst);
    [reflexivity|now rewrite <- hash_times_add|].
  assert (Hshape :
            map (fun j => line_step (1 + Z.of_nat j) (hash_times (S j) (hash_times 49 s)))
                (seq 0 (S k))
            = map (fun j => line_step (Z.of_nat j) (hash_times (49 + j) s))
                  (seq 1 (S k))).
  { rewrite <- seq_shift, map_map. apply map_ext. intros j.
    rewrite <- hash_times_add. f_equal; [lia|f_equal; lia]. }
  exists (S k). eexists. split; [reflexivity|]. split; [lia|].
  rewrite Hlog, Hshape. split; [f_equal; f_equal; f_equal; lia|]. split; [|split].
  - intros Hin. apply in_app_or in Hin. destruct Hin as [Hin|[Hin|[]]].
    + apply in_map_iff in Hin. destruct Hin as (j & Hj & _). discriminate.
    + discriminate.
  - rewrite <- Hat, <- hash_times_add. f_equal. lia.
  - intros [|j] Hj; [lia|].
    replace (49 + S j)%nat with (S j + 49)%nat by lia.
    rewrite hash_times_add. apply Hfirst. lia.
Qed.

(** *** The handlers of the interface *)

(** On a record whose [length] is the number of stored values,
    [handleSearchHash] never ends in its [catch] branch. A hash with the
    [0x] prefix and 66 characters is answered with its position and token
    count when it is stored, the position being one where
    [getHashByPosition] returns it, and with "not found" when it is not;
    any other text is refused without a search. *)
Theorem handleSearchHash_spec (chain : HashchainData) (x : string) :
  length chain = Z.of_nat (List.length (fullChain chain)) ->
  ~ In (toast_error "Failed to search hash") (handleSearchHash (Some chain) x) /\
  (startsWith x "0x" = true -> string_length x = 66 ->
   In x (fullChain chain) ->
   exists p,
     handleSearchHash (Some chain) x =
       [setSearchResult
          (template ["Position "; number_to_string p; ": "; x; " (";
                     number_to_string (length chain - p); " tokens)"]);
        toast_success (template ["Found hash at position "; number_to_string p])] /\
     getHashByPosition chain p = Ok (Some x)) /\
  (startsWith x "0x" = true -> string_length x = 66 ->
   ~ In x (fullChain chain) ->
   handleSearchHash (Some chain) x =
     [setSearchResult "Hash not found in hashchain";
      toast_error "Hash not found in hashchain"]) /\
  (startsWith x "0x" = false \/ string_length x <> 66 ->
   handleSearchHash (Some chain) x =
     [toast_error "Invalid hash format (must be 32-byte hex starting with 0x)"]).
Proof.
  intros Hlen. unfold handleSearchHash.
  destruct (searchHashInHashchain_consistent chain x Hlen)
    as [[Hnot Hsearch]|[i [Hi Hsearch]]]; rewrite Hsearch; cbn [found position tokens].
  - split; [|split; [|split]].
    + destruct (negb (startsWith x "0x") || negb (string_length x =? 66));
        [intros [E|[]]; discriminate E|intros [E|[E|[]]]; discriminate E].
    + intros _ _ Hin. contradiction.
    + intros -> ->. reflexivity.
    + intros [->| Hne]; [reflexivity|].
      destruct (Z.eqb_spec (string_length x) 66); [contradiction|].
      cbn [negb]. now rewrite orb_true_r.
  - split; [|split; [|split]].
    + destruct (negb (startsWith x "0x") || negb (string_length x =? 66));
        [intros [E|[]]; discriminate E|intros [E|[E|[]]]; discriminate E].
    + intros -> -> _. cbn [negb orb Z.eqb Pos.eqb number_or_undefined].
      exists (Z.of_nat i + 1). split; [reflexivity|].
      pose proof (first_occurrence_bound _ _ _ Hi) as Hlt. destruct Hi as [Hi _].
      unfold getHashByPosition. rewrite Z.gtb_ltb.
      destruct (Z.ltb_spec (Z.of_nat i + 1) 1); [lia|].
      destruct (Z.ltb_spec (length chain) (Z.of_nat i + 1)); [lia|].
      cbn [orb]. unfold js_get.
      destruct (Z.ltb_spec (Z.of_nat i + 1 - 1) 0); [lia|].
      replace (Z.to_nat (Z.of_nat i + 1 - 1)) with i by lia. now rewrite Hi.
    + intros _ _ Hnot. elim Hnot. destruct Hi as [Hi _].
      eapply nth_error_In; exact Hi.
    + intros [->| Hne]; [reflexivity|].
      destruct (Z.eqb_spec (string_length x) 66); [contradiction|].
      cbn [negb]. now rewrite orb_true_r.
Qed.

(** *** The random token numbers of the quick lookup *)

Lemma set_has_In (x : Z) (s : list Z) : set_has x s = true <-> In x s.
Proof.
  unfold set_has. rewrite existsb_exists. split.
  - intros (y & Hy & Heq). apply Z.eqb_eq in Heq. now subst.
  - intros Hin. exists x. split; [exact Hin|apply Z.eqb_refl].
Qed.

Lemma set_add_In (x y : Z) (s : list Z) :
  In y (set_add x s) <-> y = x \/ In y s.
Proof.
  unfold set_add. destruct (set_has x s) eqn:Hhas.
  - apply set_has_In in Hhas. split; [now right|].
    intros [->|Hin]; assumption.
  - rewrite in_app_iff. cbn. split.
    + intros [Hin|[->|[]]]; [now right|now left].
    + intros [->|Hin]; [right; now left|now left].
Qed.

Lemma set_add_NoDup (x : Z) (s : list Z) : NoDup s -> NoDup (set_add x s).
Proof.
  intros Hs. unfold set_add. destruct (set_has x s) eqn:Hhas; [exact Hs|].
  apply NoDup_rev in Hs. apply (NoDup_cons x) in Hs.
  - apply NoDup_rev in Hs. cbn in Hs. now rewrite rev_involutive in Hs.
  - rewrite <- in_rev. intros Hin. apply set_has_In in Hin. congruence.
Qed.

Lemma set_add_length (x : Z) (s : list Z) :
  (List.length s <= List.length (set_add x s) <= S (List.length s))%nat.
Proof.
  unfold set_add. destruct (set_has x s); [lia|].
  rewrite length_app. cbn. lia.
Qed.

Lemma bounded_set_size (m : Z) (s : list Z) :
  NoDup s -> (forall x, In x s -> 1 <= x <= m) ->
  Z.of_nat (List.length s) <= Z.max 0 m.
Proof.
  intros Hs Hrange.
  assert (Hincl : incl s (map Z.of_nat (seq 1 (Z.to_nat m)))).
  { intros x Hx. apply Hrange in Hx. apply in_map_iff.
    exists (Z.to_nat x). split; [lia|]. apply in_seq. lia. }
  apply (NoDup_incl_length Hs) in Hincl.
  rewrite length_map, length_seq in Hincl. lia.
Qed.

Lemma random_tokens_loop_running (m count : Z) (draws : list Z) :
  forall tokens,
    0 <= m < count ->
    NoDup tokens -> (forall x, In x tokens -> 1 <= x <= m) ->
    Forall (fun d => 1 <= d <= m) draws ->
    random_tokens_loop draws tokens count = None.
Proof.
  induction draws as [|d draws IH]; intros tokens Hm Hnodup Hrange Hdraws;
    cbn [random_tokens_loop];
    pose proof (bounded_set_size m tokens Hnodup Hrange) as Hsize;
    (destruct (Z.ltb_spec (Z.of_nat (List.length tokens)) count); [|lia]).
  - reflexivity.
  - inversion Hdraws as [|? ? Hd Hrest]; subst.
    apply IH; [exact Hm|now apply set_add_NoDup| |exact Hrest].
    intros x Hx. apply set_add_In in Hx. destruct Hx as [->|Hx]; auto.
Qed.

Lemma random_tokens_loop_result (count : Z) (draws : list Z) :
  forall tokens result,
    random_tokens_loop draws tokens count = Some result ->
    NoDup tokens ->
    Z.of_nat (List.length tokens) <= Z.max 0 count ->
    Z.of_nat (List.length result) = Z.max 0 count /\
    NoDup result /\
    (forall x, In x result -> In x tokens \/ In x draws).
Proof.
  induction draws as [|d draws IH]; intros tokens result;
    cbn [random_tokens_loop];
    (destruct (Z.ltb_spec (Z.of_nat (List.length tokens)) count) as [Hlt|Hge]);
    try discriminate; intros Hres Hnodup Hsize.
  - injection Hres as <-. split; [lia|]. split; [exact Hnodup|]. now left.
  - apply IH in Hres.
    + destruct Hres as (Hlen & Hnd & Hin). split; [exact Hlen|].
      split; [exact Hnd|]. intros x Hx. apply Hin in Hx.
      destruct Hx as [Hx|Hx]; [|right; now right].
      apply set_add_In in Hx. destruct Hx as [->|Hx]; [right|]; now left.
    + now apply set_add_NoDup.
    + pose proof (set_add_length d tokens). lia.
  - injection Hres as <-. split; [lia|]. split; [exact Hnodup|]. now left.
Qed.

Lemma sort_insert_perm (x : Z) (l : list Z) : Permutation (sort_insert x l) (x :: l).
Proof.
  induction l as [|y l IH]; cbn; [reflexivity|].
  destruct (x <=? y); [reflexivity|].
  rewrite IH. apply perm_swap.
Qed.

Lemma sort_ascending_perm (l : list Z) : Permutation (sort_ascending l) l.
Proof.
  induction l as [|x l IH]; cbn; [reflexivity|].
  rewrite sort_insert_perm. now apply perm_skip.
Qed.

Lemma sort_insert_sorted (x : Z) (l : list Z) :
  StronglySorted Z.le l -> StronglySorted Z.le (sort_insert x l).
Proof.
  induction l as [|y l IH]; intros Hl; cbn.
  - constructor; constructor.
  - apply StronglySorted_inv in Hl. destruct Hl as [Hl Hy].
    destruct (Z.leb_spec x y) as [Hxy|Hxy].
    + constructor; [constructor; assumption|].
      constructor; [exact Hxy|].
      eapply Forall_impl; [|exact Hy]. intros z Hz. cbn in Hz. lia.
    + constructor; [now apply IH|].
      apply Forall_forall. intros z Hz.
      apply (Permutation_in _ (sort_insert_perm x l)) in Hz.
      destruct Hz as [<-|Hz]; [lia|].
      rewrite Forall_forall in Hy. now apply Hy.
Qed.

Lemma sort_ascending_sorted (l : list Z) : StronglySorted Z.le (sort_ascending l).
Proof.
  induction l as [|x l IH]; cbn; [constructor|now apply sort_insert_sorted].
Qed.

Lemma strictly_sorted (l : list Z) :
  StronglySorted Z.le l -> NoDup l -> StronglySorted Z.lt l.
Proof.
  induction 1 as [|x l Hl IH Hx]; intros Hnd; [constructor|].
  inversion Hnd as [|? ? Hnotin Hnd']; subst.
  constructor; [now apply IH|].
  rewrite Forall_forall in *. intros y Hy.
  specialize (Hx y Hy). destruct (Z.eq_dec x y) as [->|Hne]; [contradiction|lia].
Qed.

(** What [generateRandomTokens] returns: nothing before the component is
    mounted; afterwards exactly [count] numbers (none for a negative
    [count]), in strictly ascending order, each of them one of the numbers
    drawn. *)
Theorem generateRandomTokens_result (isMounted : bool) (draws : list Z)
  (maxToken count : Z) (result : list Z) :
  generateRandomTokens isMounted draws maxToken count = Some result ->
  (isMounted = false -> result = []) /\
  (isMounted = true ->
   Z.of_nat (List.length result) = Z.max 0 count /\
   StronglySorted Z.lt result /\
   (forall x, In x result -> In x draws)).
Proof.
  unfold generateRandomTokens. destruct isMounted; cbn [negb].
  - destruct (random_tokens_loop draws [] count) as [tokens|] eqn:Hloop;
      [|discriminate].
    intros [= <-]. split; [discriminate|]. intros _.
    apply random_tokens_loop_result in Hloop; [|constructor|cbn; lia].
    destruct Hloop as (Hlen & Hnd & Hin).
    pose proof (sort_ascending_perm tokens) as Hperm.
    split; [|split].
    + rewrite (Permutation_length Hperm). exact Hlen.
    + apply strictly_sorted; [apply sort_ascending_sorted|].
      eapply Permutation_NoDup; [symmetry; exact Hperm|exact Hnd].
    + intros x Hx. apply (Permutation_in _ Hperm) in Hx.
      apply Hin in Hx. destruct Hx as [[]|Hx]. exact Hx.
  - intros [= <-]. split; [reflexivity|discriminate].
Qed.

(** ** Arithmetic on doubles *)

Lemma double_round_exact (z : Z) :
  Z.abs z <= max_exact -> double_round z = z.
Proof.
  intros Hz. unfold double_round. cbv zeta.
  destruct (Z.leb_spec (Z.abs z) max_exact); [reflexivity|lia].
Qed.

Lemma js_sub_exact (a b : Z) :
  Z.abs (a - b) <= max_exact -> js_sub a b = a - b.
Proof. apply double_round_exact. Qed.

Lemma js_add_exact (a b : Z) :
  Z.abs (a + b) <= max_exact -> js_add a b = a + b.
Proof. apply double_round_exact. Qed.

(** Up to [2^53] the rounding does not show: the two functions are the
    ones with the exact subtraction. *)
Lemma Float64_getTokensForPosition_exact (p L : Z) :
  L <= max_exact ->
  Float64.getTokensForPosition p L = getTokensForPosition p L.
Proof.
  intros HL. unfold Float64.getTokensForPosition, getTokensForPosition.
  rewrite Z.gtb_ltb.
  destruct (Z.ltb_spec p 1); [reflexivity|].
  destruct (Z.ltb_spec L p); [reflexivity|]. cbn [orb].
  destruct (p =? L); [reflexivity|].
  rewrite js_sub_exact; [reflexivity|]. unfold max_exact in *. lia.
Qed.

Lemma Float64_getPositionForToken_exact (t L : Z) :
  - max_exact < L <= max_exact ->
  Float64.getPositionForToken t L = getPositionForToken t L.
Proof.
  intros HL. unfold Float64.getPositionForToken, getPositionForToken.
  rewrite (js_sub_exact L 1) by (unfold max_exact in *; lia).
  rewrite Z.gtb_ltb.
  destruct (Z.ltb_spec t 1); [reflexivity|].
  destruct (Z.ltb_spec (L - 1) t); [reflexivity|]. cbn [orb].
  rewrite js_sub_exact; [reflexivity|]. unfold max_exact in *. lia.
Qed.

(** C9 (as the code has it). For a total length [L] of at most [2^53],
    [getTokensForPosition p L] is [0] for [p = L] and [L - p] for
    [1 <= p < L]; in particular position [1] carries [L - 1] tokens,
    position [L - 1] one token and position [L] none. For every [L] it
    throws (the spec's OutOfRange) exactly when [p < 1] or [p > L]. *)
Theorem getTokensForPosition_spec (p L : Z) :
  (1 <= p -> p = L -> Float64.getTokensForPosition p L = Ok 0) /\
  (L <= max_exact -> 1 <= p < L ->
   Float64.getTokensForPosition p L = Ok (L - p)) /\
  (throws (Float64.getTokensForPosition p L) <-> p < 1 \/ p > L) /\
  (1 <= L <= max_exact -> Float64.getTokensForPosition 1 L = Ok (L - 1)) /\
  (2 <= L <= max_exact -> Float64.getTokensForPosition (L - 1) L = Ok 1) /\
  (1 <= L -> Float64.getTokensForPosition L L = Ok 0).
Proof.
  assert (Hanchor : forall q, 1 <= q -> Float64.getTokensForPosition q q = Ok 0).
  { intros q Hq. unfold Float64.getTokensForPosition. rewrite Z.gtb_ltb.
    destruct (Z.ltb_spec q 1); [lia|]. rewrite Z.ltb_irrefl, Z.eqb_refl.
    reflexivity. }
  assert (Hinner : forall q, L <= max_exact -> 1 <= q < L ->
                             Float64.getTokensForPosition q L = Ok (L - q)).
  { intros q HL Hq. rewrite Float64_getTokensForPosition_exact by exact HL.
    rewrite getTokensForPosition_in_range by lia.
    destruct (Z.eqb_spec q L); [lia|reflexivity]. }
  split; [|split; [|split; [|split; [|split]]]].
  - intros Hp ->. now apply Hanchor.
  - intros HL Hp. now apply Hinner.
  - unfold Float64.getTokensForPosition. rewrite Z.gtb_ltb. split.
    + intros [e He].
      destruct (Z.ltb_spec p 1); [now left|].
      destruct (Z.ltb_spec L p); [right; lia|]. cbn [orb] in He.
      destruct (p =? L); discriminate.
    + intros Hp.
      destruct (Z.ltb_spec p 1); [eexists; reflexivity|].
      destruct (Z.ltb_spec L p); [eexists; reflexivity|lia].
  - intros HL. destruct (Z.eq_dec L 1) as [->|Hne]; [now apply Hanchor|].
    apply Hinner; lia.
  - intros HL. rewrite Hinner by lia. f_equal. lia.
  - intros HL. now apply Hanchor.
Qed.

(** C7 (as the code has it). For a total length [2 <= L <= 2^53] the
    token/position mapping is invertible: a valid token number [t] maps to
    a position whose token count is [t], and a position [p < L] maps to a
    token number whose position is [p]. *)
Theorem token_position_round_trip (L : Z) :
  2 <= L <= max_exact ->
  (forall t, 1 <= t <= L - 1 ->
     (position <- Float64.getPositionForToken t L ;;
      Float64.getTokensForPosition position L)
     = Ok t) /\
  (forall p, 1 <= p < L ->
     (tokens <- Float64.getTokensForPosition p L ;;
      Float64.getPositionForToken tokens L)
     = Ok p).
Proof.
  intros HL; split.
  - intros t Ht.
    rewrite Float64_getPositionForToken_exact by (unfold max_exact in *; lia).
    rewrite getPositionForToken_in_range by lia. cbn [bind].
    rewrite Float64_getTokensForPosition_exact by lia.
    rewrite getTokensForPosition_in_range by lia.
    destruct (Z.eqb_spec (L - t) L); f_equal; lia.
  - intros p Hp.
    rewrite Float64_getTokensForPosition_exact by lia.
    rewrite getTokensForPosition_in_range by lia.
    destruct (Z.eqb_spec p L); [lia|]. cbn [bind].
    rewrite Float64_getPositionForToken_exact by (unfold max_exact in *; lia).
    rewrite getPositionForToken_in_range by lia. f_equal; lia.
Qed.

(** *** Token numbers and positions *)

(** For a total length [L] with [-2^53 < L <= 2^53], [getPositionForToken]
    throws exactly for a token number outside [1 .. L - 1], so always when
    [L <= 1]. A position it returns is [L - t] and lies in [1 .. L - 1]: it
    is never the trust anchor's position [L]. A larger token number gives
    a smaller position. *)
Theorem getPositionForToken_spec (t L : Z) :
  - max_exact < L <= max_exact ->
  (throws (Float64.getPositionForToken t L) <-> t < 1 \/ t > L - 1) /\
  (L <= 1 -> throws (Float64.getPositionForToken t L)) /\
  (forall p, Float64.getPositionForToken t L = Ok p ->
             1 <= p <= L - 1 /\ p = L - t) /\
  (forall t' p p',
     Float64.getPositionForToken t L = Ok p ->
     Float64.getPositionForToken t' L = Ok p' ->
     t < t' -> p' < p).
Proof.
  intros HL.
  assert (Hok : forall t p, Float64.getPositionForToken t L = Ok p ->
                            1 <= t <= L - 1 /\ p = L - t).
  { intros t0 p Hp. rewrite Float64_getPositionForToken_exact in Hp by exact HL.
    destruct (Z_lt_dec t0 1) as [Hlo|Hlo];
      [rewrite getPositionForToken_out_of_range in Hp by lia; discriminate|].
    destruct (Z_gt_dec t0 (L - 1)) as [Hhi|Hhi];
      [rewrite getPositionForToken_out_of_range in Hp by lia; discriminate|].
    rewrite getPositionForToken_in_range in Hp by lia.
    injection Hp as <-. lia. }
  assert (Hthrows : t < 1 \/ t > L - 1 -> throws (Float64.getPositionForToken t L)).
  { intros Ht. rewrite Float64_getPositionForToken_exact by exact HL.
    rewrite getPositionForToken_out_of_range by exact Ht.
    eexists; reflexivity. }
  split; [split|split; [|split]].
  - intros [e He]. rewrite Float64_getPositionForToken_exact in He by exact HL.
    destruct (Z_lt_dec t 1); [now left|].
    destruct (Z_gt_dec t (L - 1)); [now right|].
    rewrite getPositionForToken_in_range in He by lia. discriminate.
  - exact Hthrows.
  - intros HL1. apply Hthrows. lia.
  - intros p Hp. apply Hok in Hp. lia.
  - intros t' p p' Hp Hp' Hlt. apply Hok in Hp. apply Hok in Hp'. lia.
Qed.

(** For a total length [L] of at most [2^53], a token count
    [getTokensForPosition] returns lies in [0 .. L - 1]; it is [0] only at
    the trust anchor's position [L]; a later position carries strictly
    fewer tokens. *)
Theorem getTokensForPosition_order (p q L : Z) :
  L <= max_exact ->
  (forall n, Float64.getTokensForPosition p L = Ok n ->
             0 <= n <= L - 1 /\ (n = 0 <-> p = L)) /\
  (forall n m,
     Float64.getTokensForPosition p L = Ok n ->
     Float64.getTokensForPosition q L = Ok m ->
     p < q -> m < n).
Proof.
  intros HL.
  assert (Hok : forall p n, Float64.getTokensForPosition p L = Ok n ->
                            1 <= p <= L /\ n = L - p).
  { intros p0 n Hn. rewrite Float64_getTokensForPosition_exact in Hn by exact HL.
    destruct (Z_lt_dec p0 1) as [Hlo|Hlo];
      [rewrite getTokensForPosition_out_of_range in Hn by lia; discriminate|].
    destruct (Z_gt_dec p0 L) as [Hhi|Hhi];
      [rewrite getTokensForPosition_out_of_range in Hn by lia; discriminate|].
    rewrite getTokensForPosition_in_range in Hn by lia.
    destruct (Z.eqb_spec p0 L); injection Hn as <-; lia. }
  split.
  - intros n Hn. apply Hok in Hn. lia.
  - intros n m Hn Hm Hlt. apply Hok in Hn. apply Hok in Hm. lia.
Qed.

(** ** What generateHashchain does with its arguments *)

(** [generateHashchain] throws for every [length <= 0], whatever the seed,
    so a record is returned only for [length >= 1]. A record it returns is
    consistent: [nodes] and [fullChain] are the same array, [length] is its
    number of elements and the requested length, and its first element is
    the [seed] field. An omitted or empty seed is replaced by the one
    [generateSeed()] draws; a non-empty one is kept. *)
Theorem generateHashchain_record (L : Z) (supplied : option string) :
  (L <= 0 -> throws (generateHashchain L supplied)) /\
  (forall chain,
     generateHashchain L supplied = Ok chain ->
     1 <= L /\
     nodes chain = fullChain chain /\
     length chain = Z.of_nat (List.length (fullChain chain)) /\
     length chain = L /\
     js_get (fullChain chain) 0 = Some (seed chain) /\
     (truthy supplied = false -> seed chain = generateSeed tt) /\
     (forall s, supplied = Some s -> s <> "" -> seed chain = s)).
Proof.
  split.
  - intros Hle. rewrite generateHashchain_not_positive by exact Hle.
    eexists; reflexivity.
  - intros chain Hgen. apply generateHashchain_inv in Hgen.
    destruct Hgen as [HL ->]. cbn [nodes fullChain length seed].
    split; [exact HL|].
    split; [reflexivity|]. split; [now rewrite hashchain_length|].
    split; [reflexivity|]. split; [now rewrite hashchain_get by lia|]. split.
    + destruct supplied as [[|c s]|]; cbn; congruence.
    + intros s -> Hs. unfold seed_or_generated. now rewrite truthy_nonempty.
Qed.


(** ** The handlers on whole numbers *)

(** For a whole token number, [handleSearchToken] does not end in its
    [catch] branch when the stored record's [length] is a safe integer
    (magnitude below [2^53]): its two range checks admit a token number
    only when neither [getPositionForToken] nor [getHashByPosition] throws.
    On a generated chain of length [L <= 2^53] a token number in
    [1 .. L - 1] is answered with the hash that [verifyHashchain] accepts
    for that many hashes, and any other token number with an error toast
    alone. *)
Theorem handleSearchToken_spec (L : Z) (supplied : option string)
  (chain : HashchainData) (t : Z) :
  generateHashchain L supplied = Ok chain ->
  L <= max_exact ->
  (forall t',
     ~ In (toast_error "Failed to search token") (handleSearchToken None t')) /\
  (forall data t',
     Z.abs (length data) < max_exact ->
     ~ In (toast_error "Failed to search token")
          (handleSearchToken (Some data) t')) /\
  (1 <= t <= L - 1 ->
   exists hash anchor,
     handleSearchToken (Some chain) t =
       [setSearchResult
          (template [hash; " ("; number_to_string t; " tokens)"]);
        toast_success (template ["Found hash for token "; number_to_string t])] /\
     trustAnchor chain = Some anchor /\
     verifyHashchain hash anchor t = Ok true) /\
  (t < 1 \/ t > L - 1 ->
   exists msg, handleSearchToken (Some chain) t = [toast_error msg]).
Proof.
  intros Hgen HLmax. split; [|split; [|split]].
  - intros t' [E|[]]. discriminate E.
  - intros data t' Hsafe. unfold handleSearchToken.
    rewrite js_sub_exact by (unfold max_exact in *; lia).
    destruct (Z.ltb_spec t' 1) as [Hlo|Hlo]; [intros [E|[]]; discriminate E|].
    rewrite Z.gtb_ltb.
    destruct (Z.ltb_spec (length data - 1) t') as [Hhi|Hhi];
      [intros [E|[]]; cbn in E; discriminate E|].
    rewrite Float64_getPositionForToken_exact by (unfold max_exact in *; lia).
    rewrite getPositionForToken_in_range by lia. cbn [bind].
    unfold getHashByPosition. rewrite Z.gtb_ltb.
    destruct (Z.ltb_spec (length data - t') 1); [lia|].
    destruct (Z.ltb_spec (length data) (length data - t')); [lia|].
    cbn [orb]. intros [E|[E|[]]]; discriminate E.
  - intros Ht.
    destruct (token_hash_lookup L supplied chain t Hgen Ht)
      as (hash & anchor & Hlookup & Hanchor & Hverify).
    exists hash, anchor. split; [|split; assumption].
    apply generateHashchain_inv in Hgen. destruct Hgen as [HL Hchain].
    assert (Hlen : length chain = L) by (rewrite Hchain; reflexivity).
    unfold handleSearchToken. rewrite Hlen in *.
    rewrite js_sub_exact by (unfold max_exact in *; lia).
    destruct (Z.ltb_spec t 1); [lia|]. rewrite Z.gtb_ltb.
    destruct (Z.ltb_spec (L - 1) t); [lia|].
    rewrite Float64_getPositionForToken_exact by (unfold max_exact in *; lia).
    now rewrite Hlookup.
  - intros Ht.
    apply generateHashchain_inv in Hgen. destruct Hgen as [HL Hchain].
    assert (Hlen : length chain = L) by (rewrite Hchain; reflexivity).
    unfold handleSearchToken. rewrite Hlen.
    rewrite js_sub_exact by (unfold max_exact in *; lia).
    destruct (Z.ltb_spec t 1); [eexists; reflexivity|]. rewrite Z.gtb_ltb.
    destruct (Z.ltb_spec (L - 1) t); [eexists; reflexivity|lia].
Qed.

(** [handleVerifyHashchain] refuses an empty trust anchor, an empty hash or
    a count below 1 with a toast alone. For a whole count [n >= 1] it
    stores one result whose [isValid] is the answer of [verifyHashchain]
    for [n] and whose [error] is set exactly when that answer is [false].
    When the search for the anchor answers [r], [r] itself is a count that
    verifies, and for [n <= 2^53 - 1000] the stored [totalLength] is
    [r + n] and [hashPosition] is [r + 1]; when the entered count (at most
    1000) verifies, the search answers some [r] not above it. *)
Theorem handleVerifyHashchain_spec (trustAnchor hashToTest : string) (n : Z) :
  (trustAnchor = "" \/ hashToTest = "" \/ n <= 0 ->
   handleVerifyHashchain trustAnchor hashToTest n =
     [toast_error "Please fill in all required fields"]) /\
  (trustAnchor <> "" -> hashToTest <> "" -> 1 <= n ->
   exists d,
     handleVerifyHashchain trustAnchor hashToTest n =
       [setIsLoading true; setVerificationResult no_result;
        setVerificationResult (completed d);
        (if verified d
         then toast_success "Hashchain verification successful!"
         else toast_error "Hashchain verification failed: Hash cannot be derived");
        setIsLoading false] /\
     tokenNumber d = n /\
     (verified d = true <-> verifyHashchain hashToTest trustAnchor n = Ok true) /\
     (error d = None <-> verified d = true) /\
     hashesNeeded d = calculateHashesNeeded hashToTest trustAnchor None /\
     (forall r, hashesNeeded d = Some r ->
        verifyHashchain hashToTest trustAnchor r = Ok true /\
        (n <= max_exact - 1000 ->
         totalLength d = Some (r + n) /\ hashPosition d = Some (r + 1))) /\
     (hashesNeeded d = None -> totalLength d = None /\ hashPosition d = None) /\
     (verified d = true -> n <= 1000 ->
      exists r, hashesNeeded d = Some r /\ 1 <= r <= n)).
Proof.
  split.
  - intros Hbad. unfold handleVerifyHashchain.
    destruct Hbad as [->|[->|Hn]].
    + reflexivity.
    + cbn [truthy negb orb]. now rewrite orb_true_r.
    + destruct (Z.leb_spec n 0); [|lia]. now rewrite orb_true_r.
  - intros Hanchor Hhash Hn. unfold handleVerifyHashchain.
    rewrite !truthy_nonempty by assumption.
    destruct (Z.leb_spec n 0); [lia|]. cbn [negb orb].
    rewrite verifyHashchain_eq.
    set (ok := String.eqb (hash_times (Z.to_nat n) hashToTest) trustAnchor).
    destruct (calculateHashesNeeded hashToTest trustAnchor None) as [r|] eqn:Hr.
    + pose proof (calculateHashesNeeded_positive _ _ _ _ Hr) as [Hb Hreach].
      cbn [maxHashes_or_default] in Hb.
      cbn [truthy_number option_map].
      destruct (Z.eqb_spec r 0); [lia|]. cbn [negb truthy_number option_map].
      eexists. split; [reflexivity|].
      cbn [verified tokenNumber error hashesNeeded totalLength hashPosition].
      split; [reflexivity|]. split; [split; congruence|].
      split; [destruct ok; split; congruence|]. split; [reflexivity|].
      split; [|split].
      * intros r' [= <-]. split; [now apply verifyHashchain_true_iff|].
        intros Hsmall.
        rewrite js_add_exact by (unfold max_exact in *; lia).
        destruct (Z.eqb_spec (r + n) 0); [lia|]. cbn [negb option_map].
        split; [reflexivity|].
        rewrite js_sub_exact by (unfold max_exact in *; lia).
        rewrite js_add_exact by (unfold max_exact in *; lia).
        f_equal. lia.
      * discriminate.
      * intros Hok Hn'. exists r. split; [reflexivity|].
        destruct (calculateHashesNeeded_le hashToTest trustAnchor None n)
          as (r' & Hr' & Hle);
          [cbn; lia|rewrite verifyHashchain_eq; fold ok; congruence|].
        rewrite Hr in Hr'. injection Hr' as <-. exact Hle.
    + cbn [truthy_number option_map].
      eexists. split; [reflexivity|].
      cbn [verified tokenNumber error hashesNeeded totalLength hashPosition].
      split; [reflexivity|]. split; [split; congruence|].
      split; [destruct ok; split; congruence|]. split; [reflexivity|].
      split; [discriminate|]. split; [intros _; split; reflexivity|].
      intros Hok Hn'.
      destruct (calculateHashesNeeded_le hashToTest trustAnchor None n)
        as (r' & Hr' & Hle);
        [cbn; lia|rewrite verifyHashchain_eq; fold ok; congruence|].
      rewrite Hr in Hr'. discriminate.
Qed.

(** ** The random token numbers, from the values of Math.random() *)

Lemma random_token_range (u : Q) (maxToken : Z) :
  (0 <= u)%Q -> (u < 1)%Q -> 0 <= maxToken ->
  1 <= random_token u maxToken <= Z.max 1 maxToken.
Proof.
  intros Hu0 Hu1 Hm. unfold random_token.
  assert (Hlow : (0 <= u * inject_Z maxToken)%Q).
  { apply Qmult_le_0_compat; [exact Hu0|].
    change 0%Q with (inject_Z 0). now rewrite <- Zle_Qle. }
  apply Qfloor_resp_le in Hlow. change (Qfloor 0) with 0 in Hlow.
  split; [lia|].
  destruct (Z.eq_dec maxToken 0) as [->|Hpos].
  - assert (Hzero : (u * inject_Z 0 == 0)%Q) by (now rewrite Qmult_0_r).
    rewrite (Qfloor_comp _ _ Hzero). reflexivity.
  - assert (Hup : (u * inject_Z maxToken < inject_Z maxToken)%Q).
    { rewrite <- (Qmult_1_l (inject_Z maxToken)) at 2.
      apply Qmult_lt_compat_r; [|exact Hu1].
      change 0%Q with (inject_Z 0). rewrite <- Zlt_Qlt. lia. }
    pose proof (Qfloor_le (u * inject_Z maxToken)) as Hfloor.
    assert (Hlt : (inject_Z (Qfloor (u * inject_Z maxToken)) < inject_Z maxToken)%Q)
      by (eapply Qle_lt_trans; eassumption).
    rewrite <- Zlt_Qlt in Hlt. lia.
Qed.

Lemma random_tokens_in_range (randoms : list Q) (maxToken : Z) :
  0 <= maxToken ->
  Forall (fun u => (0 <= u)%Q /\ (u < 1)%Q) randoms ->
  Forall (fun d => 1 <= d <= Z.max 1 maxToken)
         (map (fun u => random_token u maxToken) randoms).
Proof.
  intros Hm Hrandoms. apply Forall_map.
  eapply Forall_impl; [|exact Hrandoms].
  intros u [Hu0 Hu1]. now apply random_token_range.
Qed.

(** Once the component is mounted, [generateRandomTokens(maxToken, count)]
    never returns when [0 <= maxToken] and [max(1, maxToken) < count]: each
    value of [Math.random()] lies in [0, 1), so each number drawn lies in
    [1 .. max(1, maxToken)], the set cannot grow to [count] elements, and
    the [while] loop is still running after any number of draws. The
    component asks for 7 numbers out of [1 .. length - 1], so this is the
    case for every chain of length 1 to 7. *)
Theorem generateRandomTokens_never_returns (randoms : list Q)
  (maxToken count : Z) :
  0 <= maxToken <= max_exact ->
  Forall (fun u => (0 <= u)%Q /\ (u < 1)%Q) randoms ->
  Z.max 1 maxToken < count ->
  generateRandomTokens_random true randoms maxToken count = None.
Proof.
  intros Hm Hrandoms Hcount.
  unfold generateRandomTokens_random, generateRandomTokens. cbn [negb].
  rewrite (random_tokens_loop_running (Z.max 1 maxToken) count _ []);
    [reflexivity|lia|constructor|intros x []|].
  apply random_tokens_in_range; [lia|exact Hrandoms].
Qed.

(** Every token number the quick lookup gets from [generateRandomTokens]
    for a generated chain of at most [2^53] values (seven numbers, drawn
    with [maxToken = length - 1]) is looked up without a throw, at an index
    the chain has (so the "Invalid position" fallback is not taken): the
    hash shown is the one [verifyHashchain] accepts against the trust
    anchor with that token number as the count. *)
Theorem quick_lookup_shows_token_hashes (L : Z) (supplied : option string)
  (chain : HashchainData) (randoms : list Q) (tokenNumbers : list Z) :
  generateHashchain L supplied = Ok chain ->
  L <= max_exact ->
  Forall (fun u => (0 <= u)%Q /\ (u < 1)%Q) randoms ->
  generateRandomTokens_random true randoms (js_sub (length chain) 1) 7
    = Some tokenNumbers ->
  forall t, In t tokenNumbers ->
    exists hash anchor,
      quickLookupHash chain t = Ok hash /\
      js_get (fullChain chain) (L - t - 1) = Some hash /\
      trustAnchor chain = Some anchor /\
      verifyHashchain hash anchor t = Ok true.
Proof.
  intros Hgen HLmax Hrandoms Htokens t Ht.
  pose proof (generateHashchain_inv _ _ _ Hgen) as [HL Hchain].
  assert (Hlen : length chain = L) by (rewrite Hchain; reflexivity).
  rewrite Hlen in *.
  rewrite js_sub_exact in Htokens by (unfold max_exact in *; lia).
  pose proof (random_tokens_in_range randoms (L - 1) ltac:(lia) Hrandoms) as Hdraws.
  unfold generateRandomTokens_random, generateRandomTokens in Htokens.
  cbn [negb] in Htokens.
  assert (Hbig : 7 <= Z.max 1 (L - 1)).
  { destruct (Z_lt_dec (Z.max 1 (L - 1)) 7) as [Hsmall|]; [|lia].
    rewrite (random_tokens_loop_running (Z.max 1 (L - 1)) 7 _ []) in Htokens;
      [discriminate|lia|constructor|intros x []|exact Hdraws]. }
  assert (Hrange : 1 <= t <= L - 1).
  { destruct (random_tokens_loop _ [] 7) as [tokens|] eqn:Hloop;
      [|discriminate].
    injection Htokens as <-.
    apply (Permutation_in _ (sort_ascending_perm tokens)) in Ht.
    apply random_tokens_loop_result in Hloop; [|constructor|cbn; lia].
    destruct Hloop as (_ & _ & Hin). apply Hin in Ht.
    destruct Ht as [[]|Ht].
    rewrite Forall_forall in Hdraws. apply Hdraws in Ht. lia. }
  destruct (token_hash_lookup L supplied chain t Hgen Hrange)
    as (hash & anchor & Hlookup & Hanchor & Hverify).
  rewrite Hlen in Hlookup.
  rewrite getPositionForToken_in_range in Hlookup by lia. cbn [bind] in Hlookup.
  unfold getHashByPosition in Hlookup. rewrite Hlen, Z.gtb_ltb in Hlookup.
  destruct (Z.ltb_spec (L - t) 1); [lia|].
  destruct (Z.ltb_spec L (L - t)); [lia|].
  cbn [orb] in Hlookup. injection Hlookup as Hget.
  exists hash, anchor. unfold quickLookupHash. rewrite Hlen.
  rewrite Float64_getPositionForToken_exact by (unfold max_exact in *; lia).
  rewrite getPositionForToken_in_range by lia. cbn [bind]. rewrite Hget.
  split; [reflexivity|]. split; [reflexivity|]. split; assumption.
Qed.

End Engine.

(** ** Concrete runs

    The statements above at explicit inputs, with [toy_hash] for the hash
    and [toy_seed] for a drawn seed. *)

Lemma generateHashchain_chain_witness :
  exists chain,
    generateHashchain toy_hash toy_generateSeed 3 (Some toy_seed) = Ok chain /\
    seed chain = toy_seed /\
    Z.of_nat (List.length (fullChain chain)) = 3 /\
    js_get (fullChain chain) 0 = Some toy_seed /\
    (forall i, 1 <= i <= 3 - 1 ->
       exists prev,
         js_get (fullChain chain) (i - 1) = Some prev /\
         js_get (fullChain chain) i = Some (toy_hash prev)) /\
    (exists anchor,
       trustAnchor chain = Some anchor /\
       js_get (fullChain chain) (3 - 1) = Some anchor) /\
    hashchain_hashed toy_hash toy_seed 3 =
      firstn (Z.to_nat (3 - 1)) (fullChain chain) /\
    Z.of_nat (List.length (hashchain_hashed toy_hash toy_seed 3)) = 3 - 1 /\
    fullChain chain = generation_loop toy_hash 3 0 toy_seed [].
Proof.
  apply (generateHashchain_chain toy_hash toy_generateSeed 3 toy_seed).
  - lia.
  - reflexivity.
Defined.

Lemma verifyHashchain_spec_witness :
  verifyHashchain toy_hash toy_seed (toy_hash (toy_hash toy_seed)) 2 = Ok true.
Proof.
  apply (verifyHashchain_spec toy_hash toy_seed (toy_hash (toy_hash toy_seed)) 2).
  - lia.
  - reflexivity.
Defined.

Lemma verification_correctness_witness :
  exists x anchor,
    js_get ["s"; "hs"; "hhs"] (1 - 1) = Some x /\
    js_get ["s"; "hs"; "hhs"] (3 - 1) = Some anchor /\
    Some "hhs" = Some anchor /\
    verifyHashchain toy_hash x anchor (3 - 1) = Ok true /\
    (1 < 3 ->
     3 - 1 <= maxHashes_or_default (Some 10) ->
     (forall j, 1 < j < 3 -> js_get ["s"; "hs"; "hhs"] (j - 1) <> Some anchor) ->
     calculateHashesNeeded toy_hash x anchor (Some 10) = Some (3 - 1)) /\
    calculateHashesNeeded toy_hash x anchor (Some 10) <> Some 0.
Proof.
  apply (verification_correctness toy_hash toy_generateSeed 3 (Some "s")
           {| seed := "s"; trustAnchor := Some "hhs"; firstToken := Some "hs";
              length := 3; nodes := ["s"; "hs"; "hhs"];
              fullChain := ["s"; "hs"; "hhs"] |} 1 (Some 10)).
  - reflexivity.
  - lia.
Defined.

(** C3, the claim as stated fails for [k = L]: with the chain of length 1
    the anchor against itself is not answered [0]; the search hashes first
    and ends without a match. *)
Lemma hashesNeeded_anchor_counterexample :
  generateHashchain toy_hash toy_generateSeed 1 (Some toy_seed) =
    Ok {| seed := toy_seed; trustAnchor := Some toy_seed; firstToken := None;
          length := 1; nodes := [toy_seed]; fullChain := [toy_seed] |} /\
  calculateHashesNeeded toy_hash toy_seed toy_seed None = None /\
  calculateHashesNeeded toy_hash toy_seed toy_seed None <> Some (1 - 1).
Proof.
  split; [reflexivity|].
  assert (H : calculateHashesNeeded toy_hash toy_seed toy_seed None = None)
    by (vm_compute; reflexivity).
  split; [exact H|]. rewrite H. discriminate.
Qed.

Lemma verifyHashchain_negative_witness :
  verifyHashchain toy_hash toy_seed toy_seed (-1) = Ok true /\
  verifyHashchain_hashed toy_hash toy_seed (-1) = [].
Proof.
  apply (verifyHashchain_negative toy_hash toy_seed toy_seed (-1)). lia.
Defined.

(** C6, the claim as stated fails: with [numberOfHashes = -1] the call
    returns a boolean. *)
Lemma verify_negative_counterexample :
  verifyHashchain toy_hash toy_seed toy_seed (-1) = Ok true /\
  ~ throws (verifyHashchain toy_hash toy_seed toy_seed (-1)).
Proof.
  assert (H : verifyHashchain toy_hash toy_seed toy_seed (-1) = Ok true)
    by reflexivity.
  split; [exact H|]. intros [e He]. rewrite H in He. discriminate.
Qed.

Lemma searchHashInHashchain_spec_witness :
  searchHashInHashchain
    {| seed := "s"; trustAnchor := Some "hhs"; firstToken := Some "hs";
       length := 3; nodes := ["s"; "hs"; "hhs"]; fullChain := ["s"; "hs"; "hhs"] |}
    "hs"
  = (tokens <- getTokensForPosition (Z.of_nat 1 + 1) 3 ;;
     Ok {| found := true; position := Some (Z.of_nat 1 + 1); tokens := Some tokens |})
  /\
  searchHashInHashchain
    {| seed := "s"; trustAnchor := Some "hhs"; firstToken := Some "hs";
       length := 3; nodes := ["s"; "hs"; "hhs"]; fullChain := ["s"; "hs"; "hhs"] |}
    "absent"
  = Ok {| found := false; position := None; tokens := None |}.
Proof.
  split.
  - apply (searchHashInHashchain_spec
             {| seed := "s"; trustAnchor := Some "hhs"; firstToken := Some "hs";
                length := 3; nodes := ["s"; "hs"; "hhs"];
                fullChain := ["s"; "hs"; "hhs"] |} "hs").
    split; [reflexivity|].
    intros j Hj. assert (j = 0%nat) as -> by lia. discriminate.
  - apply (searchHashInHashchain_spec
             {| seed := "s"; trustAnchor := Some "hhs"; firstToken := Some "hs";
                length := 3; nodes := ["s"; "hs"; "hhs"];
                fullChain := ["s"; "hs"; "hhs"] |} "absent").
    cbn. intros [H|[H|[H|[]]]]; discriminate.
Defined.

(** *** Concrete runs of the further properties *)

Lemma getHashByPosition_generated_witness :
  getHashByPosition toy_chain 2 = Ok (Some (toy_hash "s")) /\
  getHashByPosition toy_chain 1 = Ok (Some "s") /\
  getHashByPosition toy_chain 3 = Ok (Some "hhs").
Proof.
  destruct (getHashByPosition_generated toy_hash toy_generateSeed 3 (Some "s")
              toy_chain 2) as (Hin & _ & Hseed & Hanchor).
  - reflexivity.
  - split; [apply Hin; lia|]. split; [exact Hseed|exact Hanchor].
Defined.

Lemma token_hash_verifies_witness :
  exists hash anchor,
    (position <- getPositionForToken 1 (length toy_chain) ;;
     getHashByPosition toy_chain position) = Ok (Some hash) /\
    hash = hash_times toy_hash (Z.to_nat (3 - 1 - 1)) (seed toy_chain) /\
    trustAnchor toy_chain = Some anchor /\
    verifyHashchain toy_hash hash anchor 1 = Ok true.
Proof.
  apply (token_hash_verifies toy_hash toy_generateSeed 3 (Some "s") toy_chain 1).
  - reflexivity.
  - lia.
Defined.

Lemma firstToken_is_token_one_witness :
  exists first anchor,
    firstToken toy_chain = Some first /\
    trustAnchor toy_chain = Some anchor /\
    toy_hash first = anchor /\
    (position <- getPositionForToken 1 (length toy_chain) ;;
     getHashByPosition toy_chain position) = Ok (Some first) /\
    verifyHashchain toy_hash first anchor 1 = Ok true.
Proof.
  apply (firstToken_is_token_one toy_hash toy_generateSeed 3 (Some "s") toy_chain).
  - reflexivity.
  - lia.
Defined.

Lemma verifyHashchain_split_witness :
  verifyHashchain toy_hash "s" "hhs" (1 + 1) =
  verifyHashchain toy_hash (hash_times toy_hash (Z.to_nat 1) "s") "hhs" 1.
Proof.
  apply (verifyHashchain_split toy_hash "s" "hhs" 1 1); lia.
Defined.

Lemma search_lookup_round_trip_witness :
  exists r,
    searchHashInHashchain toy_chain "hs" = Ok r /\
    (found r = true <-> In "hs" (fullChain toy_chain)) /\
    (forall p, position r = Some p ->
       getHashByPosition toy_chain p = Ok (Some "hs") /\
       tokens r = Some (length toy_chain - p)) /\
    (forall p, getHashByPosition toy_chain p = Ok (Some "hs") ->
       exists q, position r = Some q /\ 1 <= q <= p).
Proof.
  apply (search_lookup_round_trip toy_chain "hs"). reflexivity.
Defined.

Lemma search_found_verifies_witness :
  exists r,
    searchHashInHashchain toy_chain "hs" = Ok r /\
    (found r = true ->
     exists p t anchor,
       position r = Some p /\ tokens r = Some t /\
       1 <= p <= 3 /\ t = 3 - p /\
       trustAnchor toy_chain = Some anchor /\
       verifyHashchain toy_hash "hs" anchor t = Ok true).
Proof.
  apply (search_found_verifies toy_hash toy_generateSeed 3 (Some "s") toy_chain "hs").
  reflexivity.
Defined.

Lemma search_finds_position_witness :
  exists x,
    js_get (fullChain toy_chain) (2 - 1) = Some x /\
    searchHashInHashchain toy_chain x =
      Ok {| found := true; position := Some 2; tokens := Some (3 - 2) |}.
Proof.
  apply (search_finds_position toy_hash toy_generateSeed 3 (Some "s") toy_chain 2).
  - reflexivity.
  - repeat constructor; cbn; intuition discriminate.
  - lia.
Defined.

Lemma calculateHashesNeeded_first_witness :
  1 <= 2 <= maxHashes_or_default (Some 10) /\
  verifyHashchain toy_hash "s" "hhs" 2 = Ok true /\
  (forall j, 1 <= j < 2 -> verifyHashchain toy_hash "s" "hhs" j = Ok false).
Proof.
  apply (calculateHashesNeeded_first toy_hash "s" "hhs" (Some 10) 2).
  reflexivity.
Defined.

Lemma calculateHashesNeeded_null_witness :
  calculateHashesNeeded toy_hash "s" "s" (Some 0) = None.
Proof.
  apply (calculateHashesNeeded_null toy_hash "s" "s" (Some 0)). cbn. lia.
Defined.

Lemma validateHashchainParams_valid_iff_witness :
  isValid (validateHashchainParams 100 (Some toy_seed)) = true.
Proof.
  destruct (validateHashchainParams_valid_iff 100 (Some toy_seed))
    as [[_ Hvalid] _].
  apply Hvalid. split; [lia|]. right. exists toy_seed.
  split; [reflexivity|]. split; reflexivity.
Defined.

Lemma handleSearchHash_spec_witness :
  (exists p,
     handleSearchHash (Some single_chain) toy_seed =
       [setSearchResult
          (template ["Position "; number_to_string p; ": "; toy_seed; " (";
                     number_to_string (length single_chain - p); " tokens)"]);
        toast_success (template ["Found hash at position "; number_to_string p])] /\
     getHashByPosition single_chain p = Ok (Some toy_seed)) /\
  handleSearchHash (Some single_chain) "hs" =
    [toast_error "Invalid hash format (must be 32-byte hex starting with 0x)"].
Proof.
  destruct (handleSearchHash_spec single_chain toy_seed) as (_ & Hfound & _);
    [reflexivity|].
  destruct (handleSearchHash_spec single_chain "hs") as (_ & _ & _ & Hrefused);
    [reflexivity|].
  split.
  - apply Hfound; [reflexivity|reflexivity|now left].
  - apply Hrefused. now left.
Defined.

Lemma generateRandomTokens_result_witness :
  Z.of_nat (List.length [1; 2; 3]) = Z.max 0 3 /\
  StronglySorted Z.lt [1; 2; 3] /\
  (forall x, In x [1; 2; 3] -> In x [3; 1; 3; 2; 5]).
Proof.
  destruct (generateRandomTokens_result true [3; 1; 3; 2; 5] 5 3 [1; 2; 3])
    as [_ Hmounted].
  - reflexivity.
  - apply Hmounted. reflexivity.
Defined.


(** *** Concrete runs: arithmetic beyond 2^53, seeds, handlers *)

Lemma getTokensForPosition_spec_witness :
  Float64.getTokensForPosition 5 5 = Ok 0 /\
  Float64.getTokensForPosition 2 5 = Ok (5 - 2) /\
  throws (Float64.getTokensForPosition 6 5) /\
  Float64.getTokensForPosition 1 5 = Ok (5 - 1) /\
  Float64.getTokensForPosition (5 - 1) 5 = Ok 1.
Proof.
  destruct (getTokensForPosition_spec 5 5) as (Hanchor & _).
  destruct (getTokensForPosition_spec 2 5) as (_ & Hinner & _).
  destruct (getTokensForPosition_spec 6 5)
    as (_ & _ & Hthrows & Hfirst & Hlast & _).
  split; [apply Hanchor; [lia|reflexivity]|].
  split; [apply Hinner; [unfold max_exact; lia|lia]|].
  split; [apply Hthrows; lia|].
  split; [apply Hfirst; unfold max_exact; lia|apply Hlast; unfold max_exact; lia].
Defined.

(** C9, the claim as stated fails beyond [2^53]: for the total length
    [2^53 + 2] position 1 is given [2^53] tokens, the double nearest to
    [L - 1 = 2^53 + 1]. *)
Lemma getTokensForPosition_rounding_counterexample :
  Float64.getTokensForPosition 1 9007199254740994 = Ok 9007199254740992 /\
  9007199254740992 <> 9007199254740994 - 1.
Proof. split; [vm_compute; reflexivity|lia]. Qed.

Lemma token_position_round_trip_witness :
  (position <- Float64.getPositionForToken 30 100 ;;
   Float64.getTokensForPosition position 100)
    = Ok 30 /\
  (tokens <- Float64.getTokensForPosition 30 100 ;;
   Float64.getPositionForToken tokens 100)
    = Ok 30.
Proof.
  destruct (token_position_round_trip 100) as [Ht Hp].
  - unfold max_exact. lia.
  - split; [apply Ht; lia|apply Hp; lia].
Defined.

(** C7, the claim as stated fails beyond [2^53]: for the total length
    [2^53 + 2] token number 1 is mapped to position [2^53], and that
    position carries 2 tokens. *)
Lemma round_trip_rounding_counterexample :
  Float64.getPositionForToken 1 9007199254740994 = Ok 9007199254740992 /\
  (position <- Float64.getPositionForToken 1 9007199254740994 ;;
   Float64.getTokensForPosition position 9007199254740994) = Ok 2.
Proof. split; vm_compute; reflexivity. Qed.

Lemma getPositionForToken_spec_witness :
  throws (Float64.getPositionForToken 100 100) /\
  throws (Float64.getPositionForToken 1 1) /\
  (forall p, Float64.getPositionForToken 100 100 = Ok p ->
             1 <= p <= 100 - 1 /\ p = 100 - 100).
Proof.
  destruct (getPositionForToken_spec 100 100) as (Hthrows & _ & Hrange & _);
    [unfold max_exact; lia|].
  destruct (getPositionForToken_spec 1 1) as (_ & Hnone & _);
    [unfold max_exact; lia|].
  split; [apply Hthrows; lia|]. split; [apply Hnone; lia|exact Hrange].
Defined.

Lemma getTokensForPosition_order_witness :
  (0 <= 3 <= 5 - 1 /\ (3 = 0 <-> 2 = 5)) /\ 1 < 3.
Proof.
  destruct (getTokensForPosition_order 2 4 5) as [Hrange Horder];
    [unfold max_exact; lia|].
  split.
  - apply Hrange. reflexivity.
  - apply (Horder 3 1); [reflexivity|reflexivity|lia].
Defined.

Lemma generateHashchain_record_witness :
  throws (generateHashchain toy_hash toy_generateSeed 0 (Some "s")) /\
  nodes toy_chain = fullChain toy_chain /\
  length toy_chain = Z.of_nat (List.length (fullChain toy_chain)) /\
  length toy_chain = 3 /\
  js_get (fullChain toy_chain) 0 = Some "s".
Proof.
  destruct (generateHashchain_record toy_hash toy_generateSeed 0 (Some "s"))
    as [Hthrows _].
  destruct (generateHashchain_record toy_hash toy_generateSeed 3 (Some "s"))
    as [_ Hrecord].
  destruct (Hrecord toy_chain) as (_ & Hnodes & Hlen & HL & Hfirst & _).
  - reflexivity.
  - split; [apply Hthrows; lia|].
    repeat (split; [assumption|]). exact Hfirst.
Defined.



Lemma handleSearchToken_spec_witness :
  (exists hash anchor,
     handleSearchToken (Some toy_chain) 1 =
       [setSearchResult (template [hash; " ("; number_to_string 1; " tokens)"]);
        toast_success (template ["Found hash for token "; number_to_string 1])] /\
     trustAnchor toy_chain = Some anchor /\
     verifyHashchain toy_hash hash anchor 1 = Ok true) /\
  (exists msg, handleSearchToken (Some toy_chain) 3 = [toast_error msg]) /\
  ~ In (toast_error "Failed to search token")
       (handleSearchToken (Some toy_chain) 2).
Proof.
  destruct (handleSearchToken_spec toy_hash toy_generateSeed 3 (Some "s")
              toy_chain 1) as (_ & Hnever & Hfound & _);
    [reflexivity|unfold max_exact; lia|].
  destruct (handleSearchToken_spec toy_hash toy_generateSeed 3 (Some "s")
              toy_chain 3) as (_ & _ & _ & Hrefused);
    [reflexivity|unfold max_exact; lia|].
  split; [apply Hfound; lia|]. split; [apply Hrefused; lia|].
  apply Hnever. unfold max_exact. cbn. lia.
Defined.

Lemma handleVerifyHashchain_spec_witness :
  handleVerifyHashchain toy_hash "hhs" "s" 0 =
    [toast_error "Please fill in all required fields"] /\
  exists d,
    handleVerifyHashchain toy_hash "hhs" "s" 1 =
      [setIsLoading true; setVerificationResult no_result;
       setVerificationResult (completed d);
       (if verified d
        then toast_success "Hashchain verification successful!"
        else toast_error "Hashchain verification failed: Hash cannot be derived");
       setIsLoading false] /\
    tokenNumber d = 1.
Proof.
  destruct (handleVerifyHashchain_spec toy_hash "hhs" "s" 0) as [Hrefused _].
  destruct (handleVerifyHashchain_spec toy_hash "hhs" "s" 1) as [_ Hstored].
  split.
  - apply Hrefused. right. right. lia.
  - destruct Hstored as (d & Heffects & Htoken & _);
      [discriminate|discriminate|lia|].
    exists d. split; assumption.
Defined.

Lemma generateRandomTokens_never_returns_witness :
  generateRandomTokens_random true [0%Q; 1 # 2; 3 # 4; 1 # 4] 2 7 = None.
Proof.
  apply (generateRandomTokens_never_returns [0%Q; 1 # 2; 3 # 4; 1 # 4] 2 7).
  - unfold max_exact. lia.
  - repeat constructor; unfold Qle, Qlt; cbn; lia.
  - cbn. lia.
Defined.

Lemma quick_lookup_shows_token_hashes_witness :
  exists hash anchor,
    quickLookupHash toy_chain8 3 = Ok hash /\
    js_get (fullChain toy_chain8) (8 - 3 - 1) = Some hash /\
    trustAnchor toy_chain8 = Some anchor /\
    verifyHashchain toy_hash hash anchor 3 = Ok true.
Proof.
  apply (quick_lookup_shows_token_hashes toy_hash toy_generateSeed 8 (Some "s")
           toy_chain8 [2 # 7; 0%Q; 6 # 7; 2 # 7; 1 # 7; 5 # 7; 4 # 7; 3 # 7]
           [1; 2; 3; 4; 5; 6; 7]).
  - reflexivity.
  - unfold max_exact. lia.
  - repeat constructor; unfold Qle, Qlt; cbn; lia.
  - vm_compute. reflexivity.
  - cbn. tauto.
Defined.
